(** * ashabackend: the voice-intake webhook server of [index.js]

    A shallow embedding of the two Express handlers ([POST /voice] and
    [POST /initiate-call]) and of their helpers [getLlmResponse] and
    [savePatientData], followed by the properties of the conversation
    store, of the turn controller and of the persistence call.

    Modelling conventions.
    - JavaScript values are the values [JSON.parse] and the body parsers
      can produce, plus [undefined].  A number is kept as the text its
      string conversion gives, which decides all the handlers observe of
      it.  A string of the model stands for the sequence of code units of
      the JS string.
    - Objects the program uses as maps keep the language's semantics: the
      store [conversationState] is an ordinary object, so a lookup sees
      the properties inherited from [Object.prototype]; [Object.assign]
      writes with [[Set]], so the key [__proto__] reaches the accessor of
      [Object.prototype]; own properties are listed in the order in which
      the language enumerates them, array indices first.
    - The collaborators (completion service, database pool, telephony
      client) are inputs of a turn: what they answer is a parameter, what
      they are asked is recorded in the trace.
    - The TwiML builder throws on a text it cannot put into the document
      and adds no verb for some values; what it does with the argument of
      [say] is a parameter, of which only the acceptance of the apology is
      assumed.  Its calls [gather] and [hangup], on the constant arguments
      of the handler, and the Express response object do not fail.
    - A turn is atomic with respect to the store: the transport delivers
      the turns of one call one after the other. *)

From Stdlib Require Import NArith String List Ascii Bool.
From stdpp Require Import base option list sorting strings gmap pretty.

Open Scope string_scope.
Set Warnings "-register-all".

(** ** JavaScript values *)

Inductive jsval : Type :=
| VUndef
| VNull
| VBool (b : bool)
| VNum (text : string)
| VStr (s : string)
| VArr (xs : list jsval)
| VObj (kvs : list (string * jsval)).

(** ToBoolean.  The falsy numbers are [0], [-0] and [NaN], whose string
    conversions are [0] and [NaN]. *)
Definition truthy (v : jsval) : bool :=
  match v with
  | VUndef | VNull => false
  | VBool b => b
  | VNum text => negb (String.eqb text "0" || String.eqb text "NaN")
  | VStr s => negb (String.eqb s "")
  | VArr _ | VObj _ => true
  end.

(** Own properties of an object, as an association list in enumeration
    order.  [has_key] is [hasOwnProperty], [lookup_own] reads an own data
    property. *)
Definition has_key (k : string) (kvs : list (string * jsval)) : bool :=
  existsb (fun kv => String.eqb k kv.1) kvs.

Fixpoint lookup_own (k : string) (kvs : list (string * jsval)) : option jsval :=
  match kvs with
  | [] => None
  | (k', v) :: rest => if String.eqb k k' then Some v else lookup_own k rest
  end.

(** [o.k] for an object [o] given by its own properties and a key [k] that
    no built-in prototype defines: the own value, or [undefined]. *)
Definition prop (kvs : list (string * jsval)) (k : string) : jsval :=
  default VUndef (lookup_own k kvs).

(** The exceptions the handlers can meet. *)
Inductive error : Type :=
| TypeError
| SyntaxError
| ApiError
| DatabaseError
| BuilderError.

Inductive result (A : Type) : Type :=
| Ok (a : A)
| Throw (e : error).
Arguments Ok {A} a.
Arguments Throw {A} e.

(** [v.k] for any value [v], again for a key no built-in prototype
    defines: reading a property of [null] or [undefined] throws, a
    primitive, an array or an object without the key gives [undefined]. *)
Definition get_field (v : jsval) (k : string) : result jsval :=
  match v with
  | VUndef | VNull => Throw TypeError
  | VObj kvs => Ok (prop kvs k)
  | _ => Ok VUndef
  end.

(** ToString, as used by template literals and by property keys.  An array
    joins its elements with commas, [null] and [undefined] elements giving
    the empty string; an object gives [[object Object]] through the
    inherited [toString], unless an own [toString] property (never
    callable in a parsed value) hides it, in which case the conversion
    throws a TypeError. *)
Fixpoint to_string (v : jsval) : option string :=
  match v with
  | VUndef => Some "undefined"
  | VNull => Some "null"
  | VBool true => Some "true"
  | VBool false => Some "false"
  | VNum text => Some text
  | VStr s => Some s
  | VArr xs =>
      (fix join (l : list jsval) : option string :=
         match l with
         | [] => Some ""
         | x :: rest =>
             match (match x with
                    | VUndef | VNull => Some ""
                    | _ => to_string x
                    end), join rest with
             | Some s, Some t =>
                 Some (match rest with [] => s | _ => s +:+ "," +:+ t end)
             | _, _ => None
             end
         end) xs
  | VObj kvs => if has_key "toString" kvs then None else Some "[object Object]"
  end.

Definition ToString (v : jsval) : result string :=
  match to_string v with
  | Some s => Ok s
  | None => Throw TypeError
  end.

(** ** Ordinary objects with a prototype

    [collectedData] starts as [{}] and is only written by [Object.assign].
    Its prototype is [Object.prototype] until a [__proto__] key of an
    extraction replaces it. *)

Inductive prototype : Type :=
| ProtoObject            (* Object.prototype *)
| ProtoNull
| ProtoOf (v : jsval).   (* an object or array of a parsed reply *)

Record jsobject : Type := JsObject {
  own : list (string * jsval);
  proto : prototype
}.

Definition empty_object : jsobject := JsObject [] ProtoObject.

(** An array index is the canonical decimal text of an integer from 0 to
    2^32 - 2.  The own keys of an object are enumerated with the array
    indices first, in ascending order, and the other keys after them, in
    the order of their creation. *)
Definition digit (c : ascii) : option N :=
  let n := N_of_ascii c in
  if (48 <=? n)%N && (n <=? 57)%N then Some (n - 48)%N else None.

Fixpoint decimal (s : string) (acc : N) : option N :=
  match s with
  | EmptyString => Some acc
  | String c rest => d ← digit c; decimal rest (acc * 10 + d)%N
  end.

Definition array_index (k : string) : option N :=
  n ← decimal k 0%N;
  if (n <? 4294967295)%N && String.eqb (pretty n) k then Some n else None.

(** Writing an own data property: in place when the key exists; otherwise
    a new array index goes to its place among the indices, and any other
    new key to the end. *)
Fixpoint overwrite (k : string) (v : jsval) (kvs : list (string * jsval))
  : list (string * jsval) :=
  match kvs with
  | [] => []
  | (k', v') :: rest =>
      if String.eqb k k' then (k', v) :: rest else (k', v') :: overwrite k v rest
  end.

Fixpoint insert_index (n : N) (k : string) (v : jsval) (kvs : list (string * jsval))
  : list (string * jsval) :=
  match kvs with
  | [] => [(k, v)]
  | (k', v') :: rest =>
      match array_index k' with
      | Some n' =>
          if (n' <? n)%N then (k', v') :: insert_index n k v rest
          else (k, v) :: kvs
      | None => (k, v) :: kvs
      end
  end.

Definition define_own (k : string) (v : jsval) (kvs : list (string * jsval))
  : list (string * jsval) :=
  if has_key k kvs then overwrite k v kvs
  else
    match array_index k with
    | Some n => insert_index n k v kvs
    | None => kvs ++ [(k, v)]
    end.

(** Does [o.__proto__ = v] reach the accessor of [Object.prototype]?  Not
    when [o] or an object on its chain has an own data property of that
    name, nor when the chain ends in [null] before [Object.prototype]. *)
Definition reaches_proto_setter (o : jsobject) : bool :=
  negb (has_key "__proto__" (own o)) &&
  match proto o with
  | ProtoObject => true
  | ProtoNull => false
  | ProtoOf (VObj kvs) => negb (has_key "__proto__" kvs)
  | ProtoOf _ => true
  end.

(** The [__proto__] setter: an object or [null] becomes the prototype, any
    other value is ignored. *)
Definition set_prototype (o : jsobject) (v : jsval) : jsobject :=
  match v with
  | VNull => JsObject (own o) ProtoNull
  | VObj _ | VArr _ => JsObject (own o) (ProtoOf v)
  | _ => o
  end.

(** [o[k] = v]. *)
Definition js_set (o : jsobject) (k : string) (v : jsval) : jsobject :=
  if String.eqb k "__proto__" && reaches_proto_setter o
  then set_prototype o v
  else JsObject (define_own k v (own o)) (proto o).

(** [o.k] for a key that neither [Object.prototype] nor [Array.prototype]
    defines: own property first, then the prototype chain. *)
Definition js_get (o : jsobject) (k : string) : jsval :=
  match lookup_own k (own o) with
  | Some v => v
  | None =>
      match proto o with
      | ProtoOf (VObj kvs) => prop kvs k
      | _ => VUndef
      end
  end.

(** The own enumerable string-keyed properties of a value, as
    [Object.assign] reads them from its source: the entries of an object,
    the indexed elements of an array, the indexed characters of a string,
    nothing for the other values. *)
Definition indexed {A} (f : A -> jsval) (l : list A) : list (string * jsval) :=
  imap (fun i x => (pretty i, f x)) l.

Definition own_entries (v : jsval) : list (string * jsval) :=
  match v with
  | VObj kvs => kvs
  | VArr xs => indexed id xs
  | VStr s => indexed (fun c => VStr (String c "")) (list_ascii_of_string s)
  | _ => []
  end.

Definition Object_assign (target : jsobject) (source : jsval) : jsobject :=
  fold_left (fun o kv => js_set o kv.1 kv.2) (own_entries source) target.

(** ** Conversation state and the store *)

Inductive Role : Type := system | user | assistant.

Record message : Type := Message {
  role : Role;
  content : jsval
}.

Record ConversationState : Type := State {
  history : list message;
  collectedData : jsobject
}.

(** [{ history: [], collectedData: {} }] *)
Definition fresh_state : ConversationState := State [] empty_object.

(** The store is [const conversationState = {}]: its own properties are
    the entries, and a read that finds no own property continues in
    [Object.prototype], whose properties are all truthy (functions, and
    [Object.prototype] itself for [__proto__]) and have neither a
    [history] nor a [collectedData]. *)
Definition Object_prototype_keys : list string :=
  [ "constructor"; "__defineGetter__"; "__defineSetter__"; "hasOwnProperty";
    "__lookupGetter__"; "__lookupSetter__"; "isPrototypeOf";
    "propertyIsEnumerable"; "toString"; "valueOf"; "__proto__";
    "toLocaleString" ].

Inductive slot : Type :=
| Entry (st : ConversationState)   (* an own property: a conversation state *)
| Inherited                        (* a property of Object.prototype *)
| Missing.                         (* undefined *)

Definition store_get (store : gmap string ConversationState) (k : string) : slot :=
  match store !! k with
  | Some st => Entry st
  | None => if bool_decide (k ∈ Object_prototype_keys) then Inherited else Missing
  end.

(** ** What a handler says and does *)

Record gather_attributes : Type := GatherAttributes {
  input : string;
  speechTimeout : string;
  action : string;
  method : string
}.

(** The verbs of the TwiML document under construction. *)
Inductive verb : Type :=
| Say (text : jsval)
| Hangup
| Gather (attributes : gather_attributes) (nested : list verb).

Record response_format_t : Type := ResponseFormat { type : string }.

(** The argument of [openrouter.chat.completions.create]. *)
Record completion_request : Type := CompletionRequest {
  model : string;
  messages : list message;
  response_format : response_format_t
}.

(** The argument of [client.calls.create]. *)
Record call_request : Type := CallRequest {
  url : string;
  to : jsval;
  from : jsval
}.

(** Calls to the collaborators and to the console, in program order.  Of a
    console call the trace keeps the text, not the object or error printed
    after it. *)
Inductive event : Type :=
| Completion (req : completion_request)
| Query (sql : string) (values : list jsval)
| CallsCreate (req : call_request)
| ConsoleLog (text : string)
| ConsoleError (text : string).

(** What the collaborators answer.  The completion service either fails
    (the promise rejects, or the response has no [choices[0].message]) or
    replies with a content string; a [null] content reads as the text
    [null]. *)
Inductive completion_outcome : Type :=
| Rejects
| Replies (content : string).

Inductive db_outcome : Type := DbOk | DbFails.

Inductive call_outcome : Type :=
| CallCreated (sid : string)
| CallFails (message : string).

(** What the TwiML builder does with the argument of [say]: it throws on
    a text that cannot stand in an XML document (a control character, for
    one), it adds no verb for [null], and otherwise it adds a [<Say>]. *)
Inductive say_result : Type := Rejected | Skipped | Added.

(** The text the [catch] block of [/voice] says. *)
Definition apology : string :=
  "I apologize, but I encountered an error. Please try again later.".

(** The built-ins of the platform and of the telephony library the
    handlers call. [JSON_parse] is [None] where [JSON.parse] throws a
    SyntaxError, and lists the properties of an object in enumeration
    order; [JSON_stringify] is applied to objects only, given by their own
    properties in enumeration order; [builder_say] is what [say] does on a
    node of the TwiML document, and the apology, plain text, is a text it
    adds. *)
Class Builtins : Type := {
  JSON_parse : string -> option jsval;
  JSON_stringify : list (string * jsval) -> string;
  builder_say : jsval -> say_result;
  builder_says_apology : builder_say (VStr apology) = Added
}.

(** ** The state-and-exception monad of a handler *)

Record machine : Type := Machine {
  conversationState : gmap string ConversationState;
  twiml : list verb;
  trace : list event
}.

Definition M (A : Type) : Type := machine -> machine * result A.

Definition ret {A} (a : A) : M A := fun m => (m, Ok a).

Definition bind {A B} (c : M A) (k : A -> M B) : M B :=
  fun m =>
    match c m with
    | (m', Ok a) => k a m'
    | (m', Throw e) => (m', Throw e)
    end.

Definition lift {A} (r : result A) : M A := fun m => (m, r).

Definition try_catch {A} (body : M A) (handler : error -> M A) : M A :=
  fun m =>
    match body m with
    | (m', Throw e) => handler e m'
    | other => other
    end.

Declare Scope js_scope.
Delimit Scope js_scope with js.
Notation "x <- c ;; k" := (bind c (fun x => k))
  (at level 100, c at next level, right associativity) : js_scope.
Notation "c ;; k" := (bind c (fun _ => k))
  (at level 100, right associativity) : js_scope.
Open Scope js_scope.

Definition emit (e : event) : M unit :=
  fun m => (Machine (conversationState m) (twiml m) (trace m ++ [e]), Ok tt).

Definition append_verb (v : verb) : M unit :=
  fun m => (Machine (conversationState m) (twiml m ++ [v]) (trace m), Ok tt).

Definition write_entry (k : string) (st : ConversationState) : M unit :=
  fun m => (Machine (<[k := st]> (conversationState m)) (twiml m) (trace m), Ok tt).

(** Adding a verb to the [<Gather>] the handler has just opened, the last
    verb of the document. *)
Fixpoint nest (v : verb) (document : list verb) : list verb :=
  match document with
  | [] => []
  | x :: rest =>
      match x, rest with
      | Gather attributes nested, [] => [Gather attributes (nested ++ [v])]
      | _, _ => x :: nest v rest
      end
  end.

Definition nest_verb (v : verb) : M unit :=
  fun m => (Machine (conversationState m) (nest v (twiml m)) (trace m), Ok tt).

(** [delete conversationState[k]] *)
Definition delete_entry (k : string) : M unit :=
  fun m => (Machine (delete k (conversationState m)) (twiml m) (trace m), Ok tt).

(** [conversationState[k]] read for its [history] or [collectedData]: an
    inherited property has neither, so every such use then throws a
    TypeError, as does a property read of [undefined]. *)
Definition entry (k : string) : M ConversationState :=
  fun m =>
    match store_get (conversationState m) k with
    | Entry st => (m, Ok st)
    | Inherited | Missing => (m, Throw TypeError)
    end.

(** [conversationState[k].history.push(msg)] *)
Definition push_history (k : string) (msg : message) : M unit :=
  st <- entry k ;;
  write_entry k (State (history st ++ [msg]) (collectedData st)).

(** ** The helpers and the handlers of [index.js] *)

(** The double-quote character. *)
Definition dq : string :=
  String (Ascii.Ascii false true false false false true false false) EmptyString.

Section Handlers.
Context {B : Builtins}.

(** The template literal [systemPrompt] of [getLlmResponse]. *)
Definition systemPrompt : string :=
  "
        You are 'Asha', a friendly voice agent for the ASHA Sahayak program. Your task is to collect patient health information.
        
        Follow this script precisely:
        1. If full_name is missing, introduce yourself and ask for it.
        2. If age is missing, ask for it.
        3. If gender is missing, ask for it.
        // ... (rest of your detailed script from before) ...
        10. When all information is collected, say " +:+ dq +:+
  "Thank you for answering. We have recorded your details." +:+ dq +:+
  " and set isComplete to true.

        Rules:
        - Ask ONLY ONE question at a time.
        - Your response MUST be a valid JSON object with three keys: " +:+ dq +:+
  "responseText" +:+ dq +:+
  ", " +:+ dq +:+
  "extractedData" +:+ dq +:+
  ", and " +:+ dq +:+
  "isComplete" +:+ dq +:+
  ".
    ".

(** The trailing system message of [getLlmResponse]. *)
Definition reminder (data : jsobject) : string :=
  "Current collected data: " +:+ JSON_stringify (own data) +:+
  ". Now, determine the next question based on the script and the user's last answer. Generate the next JSON response.".

(** The argument [getLlmResponse] passes to the completion service for a
    given [state]. *)
Definition request_for (state : ConversationState) : completion_request :=
  CompletionRequest "google/gemini-flash-1.5"
    ([Message system (VStr systemPrompt)]
       ++ history state
       ++ [Message system (VStr (reminder (collectedData state)))])
    (ResponseFormat "json_object").

(** [getLlmResponse(callSid)], followed by the read of
    [choices[0].message.content] of its result.  The messages are built
    before the service is called, so a state without a [history] throws
    before any request is sent. *)
Definition getLlmResponse (callSid : string) (llm : completion_outcome) : M string :=
  state <- entry callSid ;;
  emit (Completion (request_for state)) ;;
  match llm with
  | Rejects => lift (Throw ApiError)
  | Replies c => ret c
  end.

(** The template literal [query] of [savePatientData]. *)
Definition query : string :=
  "
        INSERT INTO patients (full_name, phone_number, address, health_condition)
        VALUES ($1, $2, $3, .env$4)
        ON CONFLICT (phone_number) DO UPDATE SET
            full_name = EXCLUDED.full_name,
            address = EXCLUDED.address,
            health_condition = EXCLUDED.health_condition,
            created_at = NOW();
    ".

(** [savePatientData(phoneNumber, data)]: whatever the pool answers, and
    whatever the success message does, is caught and logged. *)
Definition savePatientData (phoneNumber : jsval) (data : jsobject) (db : db_outcome)
  : M unit :=
  let values :=
    [js_get data "full_name"; phoneNumber; js_get data "address";
     js_get data "health_condition"] in
  try_catch
    (emit (Query query values) ;;
     match db with
     | DbFails => lift (Throw DatabaseError)
     | DbOk =>
         n <- lift (ToString phoneNumber) ;;
         emit (ConsoleLog ("Successfully saved/updated data for " +:+ n))
     end)
    (fun _ => emit (ConsoleError "Error saving data to database:")).

(** Lines 48-50 of the [/voice] handler: a state is created when the read
    of [conversationState[callSid]] is falsy, that is [undefined]. *)
Definition get_or_create (callSid : string) : M unit :=
  fun m =>
    match store_get (conversationState m) callSid with
    | Missing => write_entry callSid fresh_state m
    | Entry _ | Inherited => (m, Ok tt)
    end.

(** Lines 45-54: the property key of the call, the creation of a missing
    state, the caller's utterance. *)
Definition prelude (body : list (string * jsval)) : M string :=
  let callSid := prop body "CallSid" in
  let userInput := prop body "SpeechResult" in
  key <- lift (ToString callSid) ;;
  get_or_create key ;;
  (if truthy userInput then push_history key (Message user userInput) else ret tt) ;;
  ret key.

(** Lines 57-58: the reply of the completion service, parsed. *)
Definition obtain_reply (key : string) (llm : completion_outcome) : M jsval :=
  c <- getLlmResponse key llm ;;
  match JSON_parse c with
  | Some responseData => ret responseData
  | None => lift (Throw SyntaxError)
  end.

(** Lines 60-63: the merge of the extraction and the assistant's turn. *)
Definition record_reply (key : string) (responseData : jsval) : M unit :=
  st <- entry key ;;
  extractedData <- lift (get_field responseData "extractedData") ;;
  write_entry key (State (history st) (Object_assign (collectedData st) extractedData)) ;;
  responseText <- lift (get_field responseData "responseText") ;;
  push_history key (Message assistant responseText) ;;
  emit (ConsoleLog "Current State:").

Definition gather_attrs : gather_attributes :=
  GatherAttributes "speech" "auto" "/voice" "POST".

(** [twiml.say(text)] and [gather.say(text)]: the builder throws, adds
    nothing, or adds the verb, to the document or to the gather. *)
Definition twiml_say (text : jsval) : M unit :=
  match builder_say text with
  | Rejected => lift (Throw BuilderError)
  | Skipped => ret tt
  | Added => append_verb (Say text)
  end.

Definition gather_say (text : jsval) : M unit :=
  match builder_say text with
  | Rejected => lift (Throw BuilderError)
  | Skipped => ret tt
  | Added => nest_verb (Say text)
  end.

(** Lines 65-75: persist and end the call, or ask again.  The gather is in
    the document before its text is added, and the state is deleted after
    the farewell is. *)
Definition branch (key : string) (body : list (string * jsval)) (responseData : jsval)
    (db : db_outcome) : M unit :=
  isComplete <- lift (get_field responseData "isComplete") ;;
  if truthy isComplete then
    st <- entry key ;;
    savePatientData (prop body "To") (collectedData st) db ;;
    responseText <- lift (get_field responseData "responseText") ;;
    twiml_say responseText ;;
    append_verb Hangup ;;
    delete_entry key
  else
    append_verb (Gather gather_attrs []) ;;
    responseText <- lift (get_field responseData "responseText") ;;
    gather_say responseText.

(** Lines 57-75, the block guarded by [try]. *)
Definition guarded (key : string) (body : list (string * jsval))
    (llm : completion_outcome) (db : db_outcome) : M unit :=
  responseData <- obtain_reply key llm ;;
  record_reply key responseData ;;
  branch key body responseData db.

(** Lines 57-63 alone: the reply obtained, merged and recorded. *)
Definition through_reply (key : string) (llm : completion_outcome) : M jsval :=
  responseData <- obtain_reply key llm ;;
  record_reply key responseData ;;
  ret responseData.

Definition turn_error_text : string :=
  "Error during LLM processing or TwiML generation:".

(** Lines 76-80, the [catch] block: the apology is added to the document
    as the [try] block left it. *)
Definition on_error (e : error) : M unit :=
  emit (ConsoleError turn_error_text) ;;
  twiml_say (VStr apology) ;;
  append_verb Hangup.

(** [app.post('/voice', ...)]: the handler up to [res.send]. *)
Definition voice (body : list (string * jsval)) (llm : completion_outcome)
    (db : db_outcome) : M unit :=
  key <- prelude body ;;
  try_catch (guarded key body llm db) on_error.

(** One turn on a given store: the machine starts with an empty TwiML
    document.  The handler answers with the document when it returns; an
    exception that leaves it sends nothing. *)
Definition run_voice (store : gmap string ConversationState)
    (body : list (string * jsval)) (llm : completion_outcome) (db : db_outcome)
  : machine * result unit :=
  voice body llm db (Machine store [] []).

Definition sent (r : machine * result unit) : option (list verb) :=
  match r with
  | (m, Ok _) => Some (twiml m)
  | (_, Throw _) => None
  end.

(** A status and a JSON body, as [res.status(n).json(v)] sends them. *)
Record http_response : Type := HttpResponse {
  status : nat;
  json : jsval
}.

(** [app.post('/initiate-call', ...)].  [twilioPhoneNumber] is the
    configured sender.  Inside its [try] only [client.calls.create] can
    fail, so the [catch] is the [CallFails] case. *)

Definition initiate_call (twilioPhoneNumber : jsval) (body : list (string * jsval))
    (tel : call_outcome) : M http_response :=
  let phoneNumber := prop body "phoneNumber" in
  let ngrokUrl := prop body "ngrokUrl" in
  if negb (truthy phoneNumber) || negb (truthy ngrokUrl) then
    ret (HttpResponse 400
           (VObj [("message", VStr "Both phoneNumber and ngrokUrl are required.")]))
  else
    base <- lift (ToString ngrokUrl) ;;
    let webhookUrl := base +:+ "/voice" in
    callee <- lift (ToString phoneNumber) ;;
    emit (ConsoleLog ("Request received. Attempting to call: " +:+ callee)) ;;
    emit (ConsoleLog ("Using webhook URL: " +:+ webhookUrl)) ;;
    emit (CallsCreate (CallRequest webhookUrl phoneNumber twilioPhoneNumber)) ;;
    match tel with
    | CallCreated sid =>
        emit (ConsoleLog ("Call initiated successfully. Call SID: " +:+ sid)) ;;
        ret (HttpResponse 200
               (VObj [("message", VStr "Call has been successfully initiated!");
                      ("callSid", VStr sid)]))
    | CallFails message =>
        emit (ConsoleError "Error initiating call:") ;;
        ret (HttpResponse 500
               (VObj [("message", VStr "Failed to initiate call.");
                      ("error", VStr message)]))
    end.

End Handlers.

(** ** Reading the SQL text of [savePatientData]

    The statement is a string; these functions cut out the parts the
    persistence contract names: the column list, the value expressions,
    the conflict target and the assignments of the update. *)

Definition text_after (pat s : string) : option string :=
  n ← String.index 0 pat s;
  Some (String.substring (n + String.length pat) (String.length s) s).

Definition text_before (pat s : string) : option string :=
  n ← String.index 0 pat s;
  Some (String.substring 0 n s).

Definition between (opening closing s : string) : option string :=
  text_after opening s ≫= text_before closing.

(** The pieces of [s] between the occurrences of the character [c]. *)
Fixpoint split_on (c : ascii) (s cur : string) : list string :=
  match s with
  | EmptyString => [cur]
  | String x rest =>
      if Ascii.eqb x c
      then cur :: split_on c rest EmptyString
      else split_on c rest (cur +:+ String x EmptyString)
  end.

Definition is_space (x : ascii) : bool :=
  Ascii.eqb x " "%char || Ascii.eqb x "010"%char.

Fixpoint trim_left (s : string) : string :=
  match s with
  | String x rest => if is_space x then trim_left rest else s
  | EmptyString => EmptyString
  end.

Definition reverse (s : string) : string :=
  string_of_list_ascii (rev (list_ascii_of_string s)).

Definition trim (s : string) : string :=
  reverse (trim_left (reverse (trim_left s))).

Definition comma_list (s : string) : list string :=
  trim <$> split_on ","%char s EmptyString.

Definition insert_columns (sql : string) : option (list string) :=
  comma_list <$> between "INSERT INTO patients (" ")" sql.

Definition value_expressions (sql : string) : option (list string) :=
  comma_list <$> between "VALUES (" ")" sql.

Definition conflict_target (sql : string) : option string :=
  between "ON CONFLICT (" ")" sql.

Definition update_assignments (sql : string) : option (list string) :=
  comma_list <$> between "DO UPDATE SET" ";" sql.

(** The [n]-th bind parameter of a parameterised statement. *)
Definition placeholder (n : nat) : string := "$" +:+ pretty n.

(** The queries of a trace. *)
Definition queries (t : list event) : list (string * list jsval) :=
  omap (fun e => match e with Query sql vs => Some (sql, vs) | _ => None end) t.

Definition completions (t : list event) : list completion_request :=
  omap (fun e => match e with Completion r => Some r | _ => None end) t.

(** ** Vocabulary of the statements *)

(** [v.k], with [undefined] where the read would throw. *)
Definition field (v : jsval) (k : string) : jsval :=
  match get_field v k with
  | Ok x => x
  | Throw _ => VUndef
  end.

(** A key under which the store holds, or will be given, a state: an
    existing entry, or a name that [Object.prototype] does not define. *)
Definition usable (store : gmap string ConversationState) (key : string) : Prop :=
  is_Some (store !! key) \/ key ∉ Object_prototype_keys.

(** The state of a call after the fetch-or-create step. *)
Definition state_at (store : gmap string ConversationState) (key : string)
  : ConversationState :=
  default fresh_state (store !! key).

(** The state after the caller's utterance has been recorded. *)
Definition heard (userInput : jsval) (st : ConversationState) : ConversationState :=
  if truthy userInput
  then State (history st ++ [Message user userInput]) (collectedData st)
  else st.

(** The state after a reply has been merged and recorded. *)
Definition replied (responseData : jsval) (st : ConversationState) : ConversationState :=
  State (history st ++ [Message assistant (field responseData "responseText")])
        (Object_assign (collectedData st) (field responseData "extractedData")).

(** The completion service answered with a text that parses to [r]. *)
Definition reports {B : Builtins} (llm : completion_outcome) (r : jsval) : Prop :=
  exists c, llm = Replies c /\ JSON_parse c = Some r.

(** The bind values [savePatientData] passes for a called number and the
    collected data. *)
Definition bound_values (phoneNumber : jsval) (data : jsobject) : list jsval :=
  [js_get data "full_name"; phoneNumber; js_get data "address";
   js_get data "health_condition"].

(** What a [say] the builder does not reject adds to a node. *)
Definition said {B : Builtins} (text : jsval) : list verb :=
  match builder_say text with
  | Added => [Say text]
  | Rejected | Skipped => []
  end.

(** The two documents a turn can end the call with, and the one that
    continues it. *)
Definition apology_document : list verb := [Say (VStr apology); Hangup].

Definition farewell_document {B : Builtins} (responseData : jsval) : list verb :=
  said (field responseData "responseText") ++ [Hangup].

Definition question_document {B : Builtins} (responseData : jsval) : list verb :=
  [Gather gather_attrs (said (field responseData "responseText"))].

(** Values that have properties to read: all but [null] and [undefined]. *)
Definition object_coercible (v : jsval) : bool :=
  match v with
  | VUndef | VNull => false
  | _ => true
  end.

(** What [savePatientData] prints after the query. *)
Definition persistence_log (phoneNumber : jsval) (db : db_outcome) : event :=
  match db, ToString phoneNumber with
  | DbOk, Ok n => ConsoleLog ("Successfully saved/updated data for " +:+ n)
  | _, _ => ConsoleError "Error saving data to database:"
  end.

(** The paths of a turn: what [run_voice] returns, by case on the call
    identifier, on the store and on what the completion service answers.
    [run_voice_path] below shows that every turn follows one of them. *)
Inductive turn_path {B : Builtins} (store : gmap string ConversationState)
    (body : list (string * jsval)) (llm : completion_outcome) (db : db_outcome)
  : machine * result unit -> Prop :=
| path_no_key e :
    ToString (prop body "CallSid") = Throw e ->
    turn_path store body llm db (Machine store [] [], Throw e)
| path_inherited_throws key :
    ToString (prop body "CallSid") = Ok key ->
    store !! key = None -> key ∈ Object_prototype_keys ->
    truthy (prop body "SpeechResult") = true ->
    turn_path store body llm db (Machine store [] [], Throw TypeError)
| path_inherited_apology key :
    ToString (prop body "CallSid") = Ok key ->
    store !! key = None -> key ∈ Object_prototype_keys ->
    truthy (prop body "SpeechResult") = false ->
    turn_path store body llm db
      (Machine store apology_document [ConsoleError turn_error_text], Ok tt)
| path_failed key :
    ToString (prop body "CallSid") = Ok key ->
    usable store key ->
    (forall r, reports llm r -> object_coercible r = false) ->
    let st1 := heard (prop body "SpeechResult") (state_at store key) in
    turn_path store body llm db
      (Machine (<[key := st1]> store) apology_document
         [Completion (request_for st1); ConsoleError turn_error_text], Ok tt)
| path_question key r :
    ToString (prop body "CallSid") = Ok key ->
    usable store key ->
    reports llm r -> object_coercible r = true ->
    truthy (field r "isComplete") = false ->
    builder_say (field r "responseText") <> Rejected ->
    let st1 := heard (prop body "SpeechResult") (state_at store key) in
    turn_path store body llm db
      (Machine (<[key := replied r st1]> store) (question_document r)
         [Completion (request_for st1); ConsoleLog "Current State:"], Ok tt)
| path_question_rejected key r :
    ToString (prop body "CallSid") = Ok key ->
    usable store key ->
    reports llm r -> object_coercible r = true ->
    truthy (field r "isComplete") = false ->
    builder_say (field r "responseText") = Rejected ->
    let st1 := heard (prop body "SpeechResult") (state_at store key) in
    turn_path store body llm db
      (Machine (<[key := replied r st1]> store)
         (Gather gather_attrs [] :: apology_document)
         [Completion (request_for st1); ConsoleLog "Current State:";
          ConsoleError turn_error_text], Ok tt)
| path_complete key r :
    ToString (prop body "CallSid") = Ok key ->
    usable store key ->
    reports llm r ->
    truthy (field r "isComplete") = true ->
    builder_say (field r "responseText") <> Rejected ->
    let st1 := heard (prop body "SpeechResult") (state_at store key) in
    turn_path store body llm db
      (Machine (delete key store) (farewell_document r)
         [Completion (request_for st1); ConsoleLog "Current State:";
          Query query (bound_values (prop body "To") (collectedData (replied r st1)));
          persistence_log (prop body "To") db], Ok tt)
| path_complete_rejected key r :
    ToString (prop body "CallSid") = Ok key ->
    usable store key ->
    reports llm r ->
    truthy (field r "isComplete") = true ->
    builder_say (field r "responseText") = Rejected ->
    let st1 := heard (prop body "SpeechResult") (state_at store key) in
    turn_path store body llm db
      (Machine (<[key := replied r st1]> store) apology_document
         [Completion (request_for st1); ConsoleLog "Current State:";
          Query query (bound_values (prop body "To") (collectedData (replied r st1)));
          persistence_log (prop body "To") db;
          ConsoleError turn_error_text], Ok tt).

(** The own keys of an object are in enumeration order: array indices
    first and ascending, the other keys after them. *)
Definition enumerated_before (k1 k2 : string) : Prop :=
  match array_index k1, array_index k2 with
  | Some n1, Some n2 => (n1 < n2)%N
  | Some _, None => True
  | None, Some _ => False
  | None, None => True
  end.

Definition enumeration_order (keys : list string) : Prop :=
  StronglySorted enumerated_before keys.

Definition calls (t : list event) : list call_request :=
  omap (fun e => match e with CallsCreate r => Some r | _ => None end) t.

(** ** Sample inputs

    A serialiser that agrees with [JSON.stringify] on the values used
    below (strings in which at most the control character U+0001 needs
    escaping, objects whose list is in enumeration order), a parser
    defined on the texts of some replies, a builder that rejects the
    control characters XML excludes and skips [null], and the requests and
    replies of the examples. *)

(** The control character U+0001, and its escape in a JSON text. *)
Definition soh : ascii := "001"%char.

Fixpoint escaped (s : string) : string :=
  match s with
  | EmptyString => EmptyString
  | String c rest =>
      (if Ascii.eqb c soh then "\u0001" else String c EmptyString) +:+ escaped rest
  end.

Fixpoint sample_stringify (v : jsval) : string :=
  match v with
  | VUndef | VNull => "null"
  | VBool true => "true"
  | VBool false => "false"
  | VNum text => text
  | VStr s => dq +:+ escaped s +:+ dq
  | VArr xs =>
      "[" +:+
      (fix items (l : list jsval) : string :=
         match l with
         | [] => ""
         | [x] => sample_stringify x
         | x :: rest => sample_stringify x +:+ "," +:+ items rest
         end) xs +:+ "]"
  | VObj kvs =>
      "{" +:+
      (fix members (l : list (string * jsval)) (first : bool) : string :=
         match l with
         | [] => ""
         | (_, VUndef) :: rest => members rest first
         | (k, x) :: rest =>
             (if first then "" else ",") +:+ dq +:+ k +:+ dq +:+ ":" +:+
             sample_stringify x +:+ members rest false
         end) kvs true +:+ "}"
  end.

Definition reply_question : jsval :=
  VObj [("responseText", VStr "Hello, I am Asha. May I know your full name?");
        ("extractedData", VObj []);
        ("isComplete", VBool false)].

Definition reply_complete : jsval :=
  VObj [("responseText", VStr "Thank you for answering. We have recorded your details.");
        ("extractedData",
          VObj [("full_name", VStr "Meera Devi");
                ("address", VStr "12 Lake Road");
                ("health_condition", VStr "persistent cough")]);
        ("isComplete", VBool true)].

(** An extraction whose only key is [__proto__], and a reply that carries
    it. *)
Definition proto_extraction : jsval := VObj [("__proto__", VNull)].

Definition reply_proto : jsval :=
  VObj [("responseText", VStr "Could you repeat that, please?");
        ("extractedData", proto_extraction);
        ("isComplete", VBool false)].

(** Replies whose text holds a control character, as a question and as a
    farewell; a farewell with [isComplete: 1]; replies whose text is
    [null]. *)
Definition garbled : string :=
  "May I know your" +:+ String soh EmptyString +:+ " age?".

Definition reply_garbled : jsval :=
  VObj [("responseText", VStr garbled);
        ("extractedData", VObj [("full_name", VStr "Meera Devi")]);
        ("isComplete", VBool false)].

Definition reply_farewell_garbled : jsval :=
  VObj [("responseText", VStr ("Thank you." +:+ String soh EmptyString));
        ("extractedData",
          VObj [("full_name", VStr "Meera Devi");
                ("address", VStr "12 Lake Road");
                ("health_condition", VStr "persistent cough")]);
        ("isComplete", VBool true)].

Definition reply_complete_one : jsval :=
  VObj [("responseText", VStr "Thank you for answering. We have recorded your details.");
        ("extractedData", VObj []);
        ("isComplete", VNum "1")].

Definition reply_mute : jsval :=
  VObj [("responseText", VNull);
        ("extractedData", VObj []);
        ("isComplete", VBool false)].

Definition reply_farewell_mute : jsval :=
  VObj [("responseText", VNull);
        ("extractedData", VObj []);
        ("isComplete", VBool true)].

Definition sample_replies : list jsval :=
  [reply_question; reply_complete; reply_proto; reply_garbled;
   reply_farewell_garbled; reply_complete_one; reply_mute; reply_farewell_mute].

Definition sample_parse (text : string) : option jsval :=
  List.find (fun v => String.eqb text (sample_stringify v)) sample_replies.

(** The characters of XML 1.0 among the first 256 code units: tab, line
    feed, carriage return, and everything from the space on. *)
Definition xml_char (c : ascii) : bool :=
  let n := N_of_ascii c in
  (32 <=? n)%N || (n =? 9)%N || (n =? 10)%N || (n =? 13)%N.

(** The builder on the values of the examples, strings and [null]; what
    it answers on other values is not used. *)
Definition sample_say (text : jsval) : say_result :=
  match text with
  | VNull => Skipped
  | VStr s => if forallb xml_char (list_ascii_of_string s) then Added else Rejected
  | _ => Added
  end.

Definition sample_builtins : Builtins :=
  {| JSON_parse := sample_parse;
     JSON_stringify := fun kvs => sample_stringify (VObj kvs);
     builder_say := sample_say;
     builder_says_apology := eq_refl |}.

Definition first_webhook : list (string * jsval) :=
  [("CallSid", VStr "CA0001"); ("To", VStr "+15550100")].

Definition answer_webhook : list (string * jsval) :=
  [("CallSid", VStr "CA0001"); ("SpeechResult", VStr "I have a persistent cough");
   ("To", VStr "+15550100")].

Definition question_text : string := sample_stringify reply_question.
Definition complete_text : string := sample_stringify reply_complete.

(** The store left by the first turn of call [CA0001]. *)
Definition store_after_question : gmap string ConversationState :=
  {[ "CA0001" :=
       State [Message assistant (VStr "Hello, I am Asha. May I know your full name?")]
             empty_object ]}.

(** A webhook whose call identifier is the name of an inherited property,
    and one without call identifier. *)
Definition inherited_webhook : list (string * jsval) :=
  [("CallSid", VStr "constructor"); ("SpeechResult", VStr "hello");
   ("To", VStr "+15550100")].

Definition anonymous_webhook : list (string * jsval) :=
  [("SpeechResult", VStr "hello"); ("To", VStr "+15550100")].

(** Bodies for [/initiate-call]: with the field names the handler reads,
    and with the base URL under another name. *)
Definition initiate_body : list (string * jsval) :=
  [("phoneNumber", VStr "+15550100"); ("ngrokUrl", VStr "https://intake.example.org")].

Definition initiate_body_other_name : list (string * jsval) :=
  [("phoneNumber", VStr "+15550100");
   ("callbackBaseUrl", VStr "https://intake.example.org")].

Definition proto_text : string := sample_stringify reply_proto.

(** ** Successive deliveries

    The server hands every webhook to the [/voice] handler, on the one
    store of the process.  A delivery is the body of a request together
    with what the collaborators answer during its turn; [conversation]
    runs deliveries one after the other, each on the store the previous
    one left.  It stops at an exception that leaves the handler: what
    becomes of the process then is not followed. *)

Definition delivery : Type :=
  list (string * jsval) * completion_outcome * db_outcome.

Fixpoint conversation {B : Builtins} (turns : list delivery)
    (store : gmap string ConversationState)
  : option (gmap string ConversationState) :=
  match turns with
  | [] => Some store
  | (body, llm, db) :: rest =>
      match run_voice store body llm db with
      | (m, Ok _) => conversation rest (conversationState m)
      | (_, Throw _) => None
      end
  end.

(** The completion service does not report completion. *)
Definition never_completes {B : Builtins} (llm : completion_outcome) : Prop :=
  forall r, reports llm r -> truthy (field r "isComplete") = false.

(** What the handler maintains of a state: the history holds user and
    assistant messages only, a user message is a truthy utterance, and the
    collected data has no key twice. *)
Definition state_ok (st : ConversationState) : Prop :=
  Forall (fun msg => role msg <> system /\
                     (role msg = user -> truthy (content msg) = true))
         (history st) /\
  NoDup (own (collectedData st)).*1.

Definition store_ok (store : gmap string ConversationState) : Prop :=
  map_Forall (fun _ st => state_ok st) store.

(** ** Further sample inputs *)

(** A parser that is the inverse of [sample_stringify] on the replies of a
    table. *)
Definition table_parse (table : list jsval) (text : string) : option jsval :=
  List.find (fun v => String.eqb text (sample_stringify v)) table.

Definition table_builtins (table : list jsval) : Builtins :=
  {| JSON_parse := table_parse table;
     JSON_stringify := fun kvs => sample_stringify (VObj kvs);
     builder_say := sample_say;
     builder_says_apology := eq_refl |}.

(** A reply without [extractedData], and one that extracts the name. *)
Definition reply_no_extraction : jsval :=
  VObj [("responseText", VStr "Sorry, I did not catch that.");
        ("isComplete", VBool false)].

Definition reply_name : jsval :=
  VObj [("responseText", VStr "Thank you. How old are you?");
        ("extractedData", VObj [("full_name", VStr "Meera Devi")]);
        ("isComplete", VBool false)].

Definition replies_table : list jsval :=
  [reply_question; reply_name; reply_no_extraction; reply_complete].

Definition more_builtins : Builtins := table_builtins replies_table.

(** Webhooks of a second call, and of the first call with its identifier
    sent as a one-element array. *)
Definition other_webhook : list (string * jsval) :=
  [("CallSid", VStr "CA0002"); ("SpeechResult", VStr "Ravi Kumar");
   ("To", VStr "+15550101")].

Definition array_webhook : list (string * jsval) :=
  [("CallSid", VArr [VStr "CA0001"]);
   ("SpeechResult", VStr "I have a persistent cough");
   ("To", VStr "+15550100"); ("Caller", VStr "+15550177")].

(** A store with a second call, not yet answered. *)
Definition store_two_calls : gmap string ConversationState :=
  <["CA0002" := fresh_state]> store_after_question.

(** An extraction that corrects the name and adds the age. *)
Definition correction : list (string * jsval) :=
  [("full_name", VStr "Meera D. Devi"); ("age", VNum "40")].

(** An extraction with an array index among its keys. *)
Definition numbered_extraction : jsval :=
  VObj [("7", VStr "x"); ("age", VNum "40")].

(** The collected data once the name is known. *)
Definition data_with_name : jsobject :=
  JsObject [("full_name", VStr "Meera Devi")] ProtoObject.

Definition store_with_name : gmap string ConversationState :=
  {[ "CA0001" :=
       State [Message assistant (VStr "Hello, I am Asha. May I know your full name?");
              Message user (VStr "Meera Devi");
              Message assistant (VStr "Thank you. How old are you?")]
             data_with_name ]}.

(** ** Proof steps

    [unfold_handler] exposes the monadic code of a handler, [project]
    reads the fields of a machine, [same_key] identifies two property keys
    computed from the same call identifier, [not_usable] closes the cases
    in which an inherited name is assumed usable. *)

Ltac unfold_handler :=
  unfold run_voice, voice, prelude, guarded, through_reply, obtain_reply,
    record_reply, branch, savePatientData, getLlmResponse, on_error, get_or_create, push_history,
    entry, write_entry, delete_entry, emit, append_verb, nest_verb, try_catch, bind, ret,
    lift in *.

Ltac project := cbn [trace conversationState twiml app fst snd].

Ltac same_key :=
  repeat match goal with
    | H1 : ToString ?x = Ok _, H2 : ToString ?x = _ |- _ =>
        rewrite H1 in H2; simplify_eq
    end.

Ltac not_usable :=
  match goal with
  | Hu : usable ?s ?k, Hn : ?s !! ?k = None |- _ =>
      destruct Hu as [[? ?]|?]; [congruence|done]
  end.

(** * Properties *)

Open Scope list_scope.

(** ** Own properties and [Object.assign] *)

Lemma has_key_cons k k' v l :
  has_key k ((k', v) :: l) = String.eqb k k' || has_key k l.
Proof. reflexivity. Qed.

Lemma has_key_app k l1 l2 : has_key k (l1 ++ l2) = has_key k l1 || has_key k l2.
Proof. unfold has_key. apply existsb_app. Qed.

Lemma has_key_overwrite k' k v l : has_key k' (overwrite k v l) = has_key k' l.
Proof.
  induction l as [|[k0 v0] l IH]; simpl; [done|].
  destruct (String.eqb k k0); simpl; [done|]. by rewrite IH.
Qed.

Lemma has_key_insert_index k' n k v l :
  has_key k' (insert_index n k v l) = String.eqb k' k || has_key k' l.
Proof.
  induction l as [|[k0 v0] l IH]; cbn [insert_index]; [done|].
  destruct (array_index k0) as [n0|]; [|done].
  destruct (n0 <? n)%N; [|done].
  rewrite !has_key_cons, IH.
  by destruct (String.eqb k' k), (String.eqb k' k0).
Qed.

Lemma has_key_define_own k' k v l :
  has_key k' (define_own k v l) = has_key k' l || String.eqb k' k.
Proof.
  unfold define_own. destruct (has_key k l) eqn:Hk.
  - rewrite has_key_overwrite. destruct (String.eqb_spec k' k) as [->|Hne].
    + rewrite Hk. done.
    + by rewrite orb_false_r.
  - destruct (array_index k) as [n|].
    + rewrite has_key_insert_index. apply orb_comm.
    + rewrite has_key_app. simpl. by rewrite orb_false_r.
Qed.

Lemma overwrite_absent k v l : has_key k l = false -> overwrite k v l = l.
Proof.
  induction l as [|[k0 v0] l IH]; simpl; [done|].
  destruct (String.eqb k k0); simpl; [done|]. intros H. by rewrite IH.
Qed.

Lemma overwrite_app_present k v l1 l2 :
  has_key k l1 = true -> overwrite k v (l1 ++ l2) = overwrite k v l1 ++ l2.
Proof.
  induction l1 as [|[k0 v0] l1 IH]; simpl; [done|].
  destruct (String.eqb k k0); simpl; [done|]. intros H. by rewrite IH.
Qed.

Lemma overwrite_app_absent k v l1 l2 :
  has_key k l1 = false -> overwrite k v (l1 ++ l2) = l1 ++ overwrite k v l2.
Proof.
  induction l1 as [|[k0 v0] l1 IH]; simpl; [done|].
  destruct (String.eqb k k0); simpl; [done|]. intros H. by rewrite IH.
Qed.

Lemma overwrite_overwrite k v v' l :
  overwrite k v' (overwrite k v l) = overwrite k v' l.
Proof.
  induction l as [|[k0 v0] l IH]; simpl; [done|].
  destruct (String.eqb k k0) eqn:E; simpl; rewrite E; [done|]. by rewrite IH.
Qed.

Lemma overwrite_comm k k' v v' l :
  k <> k' ->
  overwrite k v (overwrite k' v' l) = overwrite k' v' (overwrite k v l).
Proof.
  intros Hne. induction l as [|[k0 v0] l IH]; simpl; [done|].
  destruct (String.eqb_spec k' k0) as [->|H1];
    destruct (String.eqb_spec k k0) as [->|H2]; simpl.
  - done.
  - rewrite String.eqb_refl. by destruct (String.eqb_spec k k0).
  - rewrite String.eqb_refl. by destruct (String.eqb_spec k' k0).
  - destruct (String.eqb_spec k k0); [done|].
    destruct (String.eqb_spec k' k0); [done|]. by rewrite IH.
Qed.

(** Overwriting after the insertion of an array index. *)
Lemma overwrite_insert_index_same n k v v' l :
  has_key k l = false ->
  overwrite k v' (insert_index n k v l) = insert_index n k v' l.
Proof.
  induction l as [|[k0 v0] l IH]; intros Hno; cbn [insert_index].
  - cbn [overwrite]. by rewrite String.eqb_refl.
  - rewrite has_key_cons in Hno. apply orb_false_elim in Hno as [Hne Hno].
    destruct (array_index k0) as [n0|]; [destruct (n0 <? n)%N|].
    + cbn [overwrite]. rewrite Hne. by rewrite IH.
    + cbn [overwrite]. by rewrite String.eqb_refl.
    + cbn [overwrite]. by rewrite String.eqb_refl.
Qed.

Lemma overwrite_insert_index_other n k k' v v' l :
  k <> k' ->
  overwrite k' v' (insert_index n k v l) = insert_index n k v (overwrite k' v' l).
Proof.
  intros Hne.
  assert (String.eqb k' k = false) as Hkk by (apply String.eqb_neq; congruence).
  induction l as [|[k0 v0] l IH]; cbn [insert_index overwrite].
  - by rewrite Hkk.
  - destruct (array_index k0) as [n0|] eqn:Hk0; [destruct (n0 <? n)%N eqn:Hlt|].
    + cbn [overwrite]. destruct (String.eqb k' k0); cbn [insert_index];
        rewrite Hk0, Hlt; [done|]. by rewrite IH.
    + cbn [overwrite]. rewrite Hkk.
      destruct (String.eqb k' k0); cbn [insert_index]; by rewrite Hk0, Hlt.
    + cbn [overwrite]. rewrite Hkk.
      destruct (String.eqb k' k0); cbn [insert_index]; by rewrite Hk0.
Qed.

Lemma define_own_again k v v' l :
  define_own k v' (define_own k v l) = define_own k v' l.
Proof.
  unfold define_own at 1. rewrite has_key_define_own, String.eqb_refl, orb_true_r.
  unfold define_own. destruct (has_key k l) eqn:Hk.
  - apply overwrite_overwrite.
  - destruct (array_index k) as [n|].
    + by apply overwrite_insert_index_same.
    + rewrite overwrite_app_absent by done. simpl. by rewrite String.eqb_refl.
Qed.

Lemma define_own_comm k k' v v' l :
  k <> k' -> has_key k' l = true ->
  define_own k v (define_own k' v' l) = define_own k' v' (define_own k v l).
Proof.
  intros Hne Hk'. unfold define_own at 2. rewrite Hk'.
  unfold define_own at 1. rewrite has_key_overwrite.
  unfold define_own at 1. rewrite has_key_define_own, Hk'. simpl.
  unfold define_own. destruct (has_key k l) eqn:Hk.
  - by apply overwrite_comm.
  - destruct (array_index k) as [n|].
    + by rewrite overwrite_insert_index_other.
    + by rewrite overwrite_app_present.
Qed.

(** The merge restricted to own data properties. *)
Lemma fold_define_own_keys es : forall l kv,
  kv ∈ es ->
  has_key kv.1 (fold_left (fun l kv => define_own kv.1 kv.2 l) es l) = true.
Proof.
  induction es as [|e es IH] using rev_ind; intros l kv Hin.
  - by apply elem_of_nil in Hin.
  - rewrite fold_left_app. simpl. rewrite has_key_define_own.
    apply elem_of_app in Hin as [Hin|Hin].
    + by rewrite IH.
    + apply list_elem_of_singleton in Hin as ->.
      by rewrite String.eqb_refl, orb_true_r.
Qed.

Lemma fold_define_own_absorb es : forall l k v0 v,
  (forall kv, kv ∈ es -> has_key kv.1 l = true) ->
  define_own k v (fold_left (fun l kv => define_own kv.1 kv.2 l) es (define_own k v0 l))
  = define_own k v (fold_left (fun l kv => define_own kv.1 kv.2 l) es l).
Proof.
  induction es as [|[k' v'] es IH]; intros l k v0 v Hall; simpl.
  - apply define_own_again.
  - destruct (String.eqb_spec k' k) as [->|Hne].
    + by rewrite define_own_again.
    + rewrite <- (define_own_comm k k') by (done || (apply (Hall (k', v')); left)).
      apply IH. intros kv Hkv. rewrite has_key_define_own.
      rewrite (Hall kv) by (by right). done.
Qed.

Lemma fold_define_own_idempotent es : forall l,
  let merge := fold_left (fun l kv => define_own kv.1 kv.2 l) es in
  merge (merge l) = merge l.
Proof.
  induction es as [|[k v] es IH] using rev_ind; intros l; simpl; [done|].
  rewrite !fold_left_app. simpl.
  rewrite fold_define_own_absorb.
  - simpl in IH. by rewrite IH.
  - intros kv Hkv. by apply fold_define_own_keys.
Qed.

Lemma js_set_plain o k v :
  String.eqb k "__proto__" = false ->
  js_set o k v = JsObject (define_own k v (own o)) (proto o).
Proof. intros H. unfold js_set. by rewrite H. Qed.

Lemma Object_assign_plain_entries es : forall o,
  has_key "__proto__" es = false ->
  fold_left (fun o kv => js_set o kv.1 kv.2) es o
  = JsObject (fold_left (fun l kv => define_own kv.1 kv.2 l) es (own o)) (proto o).
Proof.
  induction es as [|[k v] es IH]; intros o Hno; simpl.
  - by destruct o.
  - rewrite has_key_cons in Hno. apply orb_false_elim in Hno as [Hk Hes].
    rewrite String.eqb_sym in Hk.
    rewrite js_set_plain by done. by rewrite IH.
Qed.

(** Without a [__proto__] key the merge is idempotent. *)
Lemma Object_assign_idempotent o source :
  has_key "__proto__" (own_entries source) = false ->
  Object_assign (Object_assign o source) source = Object_assign o source.
Proof.
  intros Hno. unfold Object_assign.
  rewrite !Object_assign_plain_entries by done. simpl.
  f_equal. apply fold_define_own_idempotent.
Qed.

(** A write never removes an own property. *)
Lemma js_set_keeps_keys o k v k' :
  has_key k' (own o) = true -> has_key k' (own (js_set o k v)) = true.
Proof.
  intros H. unfold js_set.
  destruct (String.eqb k "__proto__" && reaches_proto_setter o).
  - unfold set_prototype. by destruct v.
  - simpl. by rewrite has_key_define_own, H.
Qed.

Lemma Object_assign_keeps_keys source : forall o k,
  has_key k (own o) = true -> has_key k (own (Object_assign o source)) = true.
Proof.
  unfold Object_assign. induction (own_entries source) as [|[k' v'] es IH];
    intros o k H; simpl; [done|].
  apply IH. by apply js_set_keeps_keys.
Qed.

(** A key other than [__proto__] of an object extraction is written with
    the extraction's value. *)
Lemma lookup_own_overwrite k' k v l :
  lookup_own k' (overwrite k v l)
  = if String.eqb k' k && has_key k l then Some v else lookup_own k' l.
Proof.
  induction l as [|[k0 v0] l IH]; simpl.
  - by rewrite andb_false_r.
  - destruct (String.eqb_spec k k0) as [->|Hk]; simpl.
    + destruct (String.eqb_spec k' k0); done.
    + destruct (String.eqb_spec k' k0) as [->|Hk'].
      * destruct (String.eqb_spec k0 k); [congruence|done].
      * apply IH.
Qed.

Lemma lookup_own_app k l1 l2 :
  lookup_own k (l1 ++ l2)
  = match lookup_own k l1 with Some v => Some v | None => lookup_own k l2 end.
Proof.
  induction l1 as [|[k0 v0] l1 IH]; simpl; [done|].
  by destruct (String.eqb k k0).
Qed.

Lemma lookup_own_absent k l : has_key k l = false -> lookup_own k l = None.
Proof.
  induction l as [|[k0 v0] l IH]; simpl; [done|].
  destruct (String.eqb k k0); simpl; [done|]. apply IH.
Qed.

Lemma lookup_own_insert_index k' n k v l :
  has_key k l = false ->
  lookup_own k' (insert_index n k v l)
  = if String.eqb k' k then Some v else lookup_own k' l.
Proof.
  induction l as [|[k0 v0] l IH]; intros Hno; cbn [insert_index]; [done|].
  rewrite has_key_cons in Hno. apply orb_false_elim in Hno as [Hne Hno].
  destruct (array_index k0) as [n0|]; [destruct (n0 <? n)%N|]; [|done..].
  cbn [lookup_own]. rewrite IH by done.
  destruct (String.eqb_spec k' k0) as [->|?]; [|done]. by rewrite String.eqb_sym, Hne.
Qed.

Lemma lookup_own_define_own k' k v l :
  lookup_own k' (define_own k v l)
  = if String.eqb k' k then Some v else lookup_own k' l.
Proof.
  unfold define_own. destruct (has_key k l) eqn:Hk.
  - rewrite lookup_own_overwrite, Hk, andb_true_r. done.
  - destruct (array_index k) as [n|]; [by apply lookup_own_insert_index|].
    rewrite lookup_own_app. simpl.
    destruct (String.eqb_spec k' k) as [->|Hne].
    + by rewrite lookup_own_absent.
    + by destruct (lookup_own k' l).
Qed.

Lemma has_key_elem_of k l : has_key k l = true <-> k ∈ l.*1.
Proof.
  induction l as [|[k0 v0] l IH].
  - split; [done|]. intros H. by apply elem_of_nil in H.
  - rewrite has_key_cons, orb_true_iff, IH, fmap_cons, elem_of_cons.
    by rewrite String.eqb_eq.
Qed.

Lemma fold_define_own_other es : forall l k,
  has_key k es = false ->
  lookup_own k (fold_left (fun l kv => define_own kv.1 kv.2 l) es l) = lookup_own k l.
Proof.
  induction es as [|[k0 v0] es IH]; intros l k Hk; simpl; [done|].
  rewrite has_key_cons in Hk. apply orb_false_elim in Hk as [Hne Hes].
  rewrite IH by done. by rewrite lookup_own_define_own, Hne.
Qed.

Lemma fold_define_own_written es : forall l k v,
  NoDup es.*1 -> (k, v) ∈ es ->
  lookup_own k (fold_left (fun l kv => define_own kv.1 kv.2 l) es l) = Some v.
Proof.
  induction es as [|[k0 v0] es IH]; intros l k v Hnd Hin; simpl.
  - by apply elem_of_nil in Hin.
  - simpl in Hnd. apply NoDup_cons in Hnd as [Hfresh Hnd].
    apply elem_of_cons in Hin as [Heq|Hin].
    + simplify_eq. rewrite fold_define_own_other.
      * by rewrite lookup_own_define_own, String.eqb_refl.
      * destruct (has_key k0 es) eqn:Hk; [|done].
        by apply has_key_elem_of in Hk.
    + by apply IH.
Qed.

(** The merge is a shallow overwrite for an object extraction without
    [__proto__] key: each of its keys reads as the extraction's value
    afterwards, every other own property is as before, and so is the
    prototype. *)
Lemma Object_assign_overwrites o kvs :
  has_key "__proto__" kvs = false -> NoDup kvs.*1 ->
  (forall k v, (k, v) ∈ kvs ->
     lookup_own k (own (Object_assign o (VObj kvs))) = Some v) /\
  (forall k, has_key k kvs = false ->
     lookup_own k (own (Object_assign o (VObj kvs))) = lookup_own k (own o)) /\
  proto (Object_assign o (VObj kvs)) = proto o.
Proof.
  intros Hno Hnd. unfold Object_assign. simpl own_entries.
  rewrite Object_assign_plain_entries by done. simpl.
  split; [|split; [|done]].
  - intros k v Hin. by apply fold_define_own_written.
  - intros k Hk. by apply fold_define_own_other.
Qed.

(** ** Evaluating a turn *)

Section Evaluation.
Context {B : Builtins}.

Lemma store_get_entry store k st :
  store !! k = Some st -> store_get store k = Entry st.
Proof. intros H. unfold store_get. by rewrite H. Qed.

Lemma store_get_missing store k :
  store !! k = None -> k ∉ Object_prototype_keys -> store_get store k = Missing.
Proof.
  intros H Hk. unfold store_get. rewrite H. by rewrite bool_decide_eq_false_2.
Qed.

Lemma store_get_inherited store k :
  store !! k = None -> k ∈ Object_prototype_keys -> store_get store k = Inherited.
Proof.
  intros H Hk. unfold store_get. rewrite H. by rewrite bool_decide_eq_true_2.
Qed.

Lemma get_field_coercible r k :
  object_coercible r = true -> get_field r k = Ok (field r k).
Proof. unfold field. by destruct r. Qed.

Lemma get_field_not_coercible r k :
  object_coercible r = false -> get_field r k = Throw TypeError.
Proof. by destruct r. Qed.

Lemma truthy_field_coercible r k :
  truthy (field r k) = true -> object_coercible r = true.
Proof. by destruct r. Qed.

(** Lines 45-54 on a key that has or gets a state. *)
Lemma prelude_usable store tw tr body key :
  ToString (prop body "CallSid") = Ok key ->
  usable store key ->
  prelude body (Machine store tw tr)
  = (Machine (<[key := heard (prop body "SpeechResult") (state_at store key)]> store)
       tw tr, Ok key).
Proof.
  intros Hkey Huse. unfold_handler. rewrite Hkey. simpl.
  unfold heard, state_at. destruct (store !! key) as [st|] eqn:Hst; simpl.
  - rewrite (store_get_entry _ _ _ Hst).
    destruct (truthy (prop body "SpeechResult")); simpl.
    + by rewrite (store_get_entry _ _ _ Hst).
    + by rewrite insert_id.
  - destruct Huse as [[? ?]|Hk]; [congruence|].
    rewrite (store_get_missing _ _ Hst Hk). simpl.
    destruct (truthy (prop body "SpeechResult")); simpl; [|done].
    rewrite (store_get_entry _ _ fresh_state) by apply lookup_insert_eq.
    simpl. by rewrite insert_insert_eq.
Qed.

(** Lines 45-54 on a name inherited from [Object.prototype]. *)
Lemma prelude_inherited store tw tr body key :
  ToString (prop body "CallSid") = Ok key ->
  store !! key = None -> key ∈ Object_prototype_keys ->
  prelude body (Machine store tw tr)
  = (Machine store tw tr,
     if truthy (prop body "SpeechResult") then Throw TypeError else Ok key).
Proof.
  intros Hkey Hst Hk. unfold_handler. rewrite Hkey. simpl.
  rewrite (store_get_inherited _ _ Hst Hk).
  destruct (truthy (prop body "SpeechResult")); simpl; [|done].
  by rewrite (store_get_inherited _ _ Hst Hk).
Qed.

Lemma prelude_no_key store tw tr body e :
  ToString (prop body "CallSid") = Throw e ->
  prelude body (Machine store tw tr) = (Machine store tw tr, Throw e).
Proof. intros Hkey. unfold_handler. by rewrite Hkey. Qed.

(** Either a key is usable or it is an inherited name without entry. *)
Lemma usable_or_inherited store key :
  usable store key \/ (store !! key = None /\ key ∈ Object_prototype_keys).
Proof.
  unfold usable. destruct (store !! key) eqn:H; [left; left; eauto|].
  destruct (decide (key ∈ Object_prototype_keys)); [right|left; right]; done.
Qed.

(** The guarded block on a machine whose store holds [st1] under [key]. *)
Lemma guarded_rejects store tw tr body key st1 db :
  guarded key body Rejects db (Machine (<[key := st1]> store) tw tr)
  = (Machine (<[key := st1]> store) tw (tr ++ [Completion (request_for st1)]),
     Throw ApiError).
Proof.
  unfold_handler. simpl.
  by rewrite (store_get_entry _ _ st1) by apply lookup_insert_eq.
Qed.

Lemma guarded_unparseable store tw tr body key st1 db c :
  JSON_parse c = None ->
  guarded key body (Replies c) db (Machine (<[key := st1]> store) tw tr)
  = (Machine (<[key := st1]> store) tw (tr ++ [Completion (request_for st1)]),
     Throw SyntaxError).
Proof.
  intros Hc. unfold_handler. simpl.
  rewrite (store_get_entry _ _ st1) by apply lookup_insert_eq. simpl.
  by rewrite Hc.
Qed.

Lemma guarded_not_object store tw tr body key st1 db c r :
  JSON_parse c = Some r -> object_coercible r = false ->
  guarded key body (Replies c) db (Machine (<[key := st1]> store) tw tr)
  = (Machine (<[key := st1]> store) tw (tr ++ [Completion (request_for st1)]),
     Throw TypeError).
Proof.
  intros Hc Hr. unfold_handler. simpl.
  rewrite (store_get_entry _ _ st1) by apply lookup_insert_eq. simpl.
  rewrite Hc. simpl.
  rewrite (store_get_entry _ _ st1) by apply lookup_insert_eq. simpl.
  by rewrite (get_field_not_coercible _ _ Hr).
Qed.

(** Lines 57-63 when the reply has properties. *)
Lemma reply_recorded store tw tr key st1 c r :
  JSON_parse c = Some r -> object_coercible r = true ->
  through_reply key (Replies c) (Machine (<[key := st1]> store) tw tr)
  = (Machine (<[key := replied r st1]> store) tw
       (tr ++ [Completion (request_for st1)] ++ [ConsoleLog "Current State:"]),
     Ok r).
Proof.
  intros Hc Hr. unfold_handler. simpl.
  rewrite (store_get_entry _ _ st1) by apply lookup_insert_eq. simpl.
  rewrite Hc. simpl.
  rewrite (store_get_entry _ _ st1) by apply lookup_insert_eq. simpl.
  rewrite !(get_field_coercible _ _ Hr). simpl.
  rewrite (store_get_entry _ _ _ (lookup_insert_eq _ _ _)). simpl.
  rewrite !insert_insert_eq. by rewrite <- app_assoc.
Qed.

Lemma savePatientData_runs store tw tr phoneNumber data db :
  savePatientData phoneNumber data db (Machine store tw tr)
  = (Machine store tw
       (tr ++ [Query query (bound_values phoneNumber data)]
           ++ [persistence_log phoneNumber db]),
     Ok tt).
Proof.
  unfold_handler. unfold persistence_log, bound_values. simpl.
  destruct db; simpl.
  - destruct (ToString phoneNumber); simpl; by rewrite <- app_assoc.
  - by rewrite <- app_assoc.
Qed.

Lemma on_error_runs e store tw tr :
  on_error e (Machine store tw tr)
  = (Machine store (tw ++ apology_document) (tr ++ [ConsoleError turn_error_text]),
     Ok tt).
Proof.
  unfold on_error, twiml_say. rewrite builder_says_apology.
  unfold emit, append_verb, bind. simpl. by rewrite <- app_assoc.
Qed.

(** The gather takes the verb nested in it wherever it stands last. *)
Lemma nest_last v tw attributes nested :
  nest v (tw ++ [Gather attributes nested]) = tw ++ [Gather attributes (nested ++ [v])].
Proof.
  induction tw as [|x tw IH]; [done|].
  cbn [app nest]. rewrite IH.
  destruct x; try done. by destruct tw.
Qed.

Lemma twiml_say_runs text store tw tr :
  twiml_say text (Machine store tw tr)
  = match builder_say text with
    | Rejected => (Machine store tw tr, Throw BuilderError)
    | Skipped | Added => (Machine store (tw ++ said text) tr, Ok tt)
    end.
Proof.
  unfold twiml_say, said. destruct (builder_say text); try done.
  unfold ret. by rewrite app_nil_r.
Qed.

Lemma gather_say_runs text store tw tr attributes :
  gather_say text (Machine store (tw ++ [Gather attributes []]) tr)
  = match builder_say text with
    | Rejected => (Machine store (tw ++ [Gather attributes []]) tr, Throw BuilderError)
    | Skipped | Added => (Machine store (tw ++ [Gather attributes (said text)]) tr, Ok tt)
    end.
Proof.
  unfold gather_say, said. destruct (builder_say text); try done.
  unfold nest_verb. simpl. by rewrite nest_last.
Qed.

Lemma branch_question store tw tr body key r db :
  object_coercible r = true -> truthy (field r "isComplete") = false ->
  branch key body r db (Machine store tw tr)
  = match builder_say (field r "responseText") with
    | Rejected => (Machine store (tw ++ [Gather gather_attrs []]) tr, Throw BuilderError)
    | Skipped | Added => (Machine store (tw ++ question_document r) tr, Ok tt)
    end.
Proof.
  intros Hr Hc. unfold branch.
  unfold bind at 1, lift at 1. rewrite (get_field_coercible _ _ Hr), Hc.
  unfold bind at 1, append_verb at 1. simpl.
  unfold bind at 1, lift at 1. rewrite (get_field_coercible _ _ Hr).
  by rewrite gather_say_runs.
Qed.

Lemma branch_complete store tw tr body key st r db :
  object_coercible r = true -> truthy (field r "isComplete") = true ->
  store !! key = Some st ->
  let asked :=
    tr ++ [Query query (bound_values (prop body "To") (collectedData st))]
       ++ [persistence_log (prop body "To") db] in
  branch key body r db (Machine store tw tr)
  = match builder_say (field r "responseText") with
    | Rejected => (Machine store tw asked, Throw BuilderError)
    | Skipped | Added =>
        (Machine (delete key store) (tw ++ farewell_document r) asked, Ok tt)
    end.
Proof.
  intros Hr Hc Hst asked. unfold branch.
  unfold bind at 1, lift at 1. rewrite (get_field_coercible _ _ Hr), Hc.
  unfold bind at 1, entry at 1. simpl. rewrite (store_get_entry _ _ _ Hst).
  unfold bind at 1. rewrite savePatientData_runs.
  unfold bind at 1, lift at 1. rewrite (get_field_coercible _ _ Hr).
  unfold bind at 1. rewrite twiml_say_runs. unfold farewell_document.
  destruct (builder_say (field r "responseText")); try done;
    unfold bind, append_verb, delete_entry; simpl; by rewrite <- app_assoc.
Qed.

(** The guarded block is lines 57-63 followed by the branch. *)
Lemma guarded_through key body llm db m :
  guarded key body llm db m
  = (responseData <- through_reply key llm ;; branch key body responseData db) m.
Proof.
  unfold guarded, through_reply, bind, ret.
  destruct (obtain_reply key llm m) as [m1 [r|e]]; [|done].
  by destruct (record_reply key r m1) as [m2 [[]|e]].
Qed.

Lemma guarded_no_entry store tw tr body key llm db :
  store !! key = None ->
  guarded key body llm db (Machine store tw tr) = (Machine store tw tr, Throw TypeError).
Proof.
  intros Hst. unfold guarded, obtain_reply, getLlmResponse, entry, bind. simpl.
  unfold store_get. rewrite Hst. by case_bool_decide.
Qed.

Lemma guarded_question store tw tr body key st1 db c r :
  JSON_parse c = Some r -> object_coercible r = true ->
  truthy (field r "isComplete") = false ->
  let asked := tr ++ [Completion (request_for st1)] ++ [ConsoleLog "Current State:"] in
  guarded key body (Replies c) db (Machine (<[key := st1]> store) tw tr)
  = match builder_say (field r "responseText") with
    | Rejected =>
        (Machine (<[key := replied r st1]> store) (tw ++ [Gather gather_attrs []]) asked,
         Throw BuilderError)
    | Skipped | Added =>
        (Machine (<[key := replied r st1]> store) (tw ++ question_document r) asked,
         Ok tt)
    end.
Proof.
  intros Hc Hr Hq asked. rewrite guarded_through. unfold bind at 1.
  rewrite (reply_recorded _ _ _ _ _ _ _ Hc Hr).
  by apply branch_question.
Qed.

Lemma guarded_complete store tw tr body key st1 db c r :
  JSON_parse c = Some r -> truthy (field r "isComplete") = true ->
  let asked :=
    (tr ++ [Completion (request_for st1)] ++ [ConsoleLog "Current State:"])
      ++ [Query query (bound_values (prop body "To") (collectedData (replied r st1)))]
      ++ [persistence_log (prop body "To") db] in
  guarded key body (Replies c) db (Machine (<[key := st1]> store) tw tr)
  = match builder_say (field r "responseText") with
    | Rejected => (Machine (<[key := replied r st1]> store) tw asked, Throw BuilderError)
    | Skipped | Added =>
        (Machine (delete key store) (tw ++ farewell_document r) asked, Ok tt)
    end.
Proof.
  intros Hc Hq asked. pose proof (truthy_field_coercible _ _ Hq) as Hr.
  rewrite guarded_through. unfold bind at 1.
  rewrite (reply_recorded _ _ _ _ _ _ _ Hc Hr).
  rewrite (branch_complete _ _ _ _ _ (replied r st1)) by (done || apply lookup_insert_eq).
  by rewrite delete_insert_eq.
Qed.

(** Every turn follows one of the paths. *)
Lemma run_voice_path store body llm db :
  turn_path store body llm db (run_voice store body llm db).
Proof.
  unfold run_voice, voice. unfold bind at 1.
  destruct (ToString (prop body "CallSid")) as [key|e] eqn:Hkey.
  2:{ rewrite (prelude_no_key _ _ _ _ _ Hkey). by constructor. }
  destruct (usable_or_inherited store key) as [Hu|[Hst Hk]].
  - rewrite (prelude_usable _ _ _ _ _ Hkey Hu). unfold try_catch.
    set (st1 := heard (prop body "SpeechResult") (state_at store key)).
    destruct llm as [|c].
    { rewrite guarded_rejects, on_error_runs.
      apply (path_failed _ _ _ _ key); try done.
      intros r (c & Hc & _). done. }
    destruct (JSON_parse c) as [r|] eqn:Hc.
    2:{ rewrite (guarded_unparseable _ _ _ _ _ _ _ _ Hc), on_error_runs.
        apply (path_failed _ _ _ _ key); try done.
        intros r (c' & Hc' & Hp). congruence. }
    destruct (object_coercible r) eqn:Hr.
    2:{ rewrite (guarded_not_object _ _ _ _ _ _ _ _ _ Hc Hr), on_error_runs.
        apply (path_failed _ _ _ _ key); try done.
        intros r' (c' & Hc' & Hp). congruence. }
    assert (reports (Replies c) r) as Hrep by (by exists c).
    destruct (truthy (field r "isComplete")) eqn:Hq.
    + rewrite (guarded_complete _ _ _ _ _ _ _ _ _ Hc Hq).
      destruct (builder_say (field r "responseText")) eqn:Hsay.
      * rewrite on_error_runs.
        by apply (path_complete_rejected _ _ _ _ key r).
      * apply (path_complete _ _ _ _ key r); try done. congruence.
      * apply (path_complete _ _ _ _ key r); try done. congruence.
    + rewrite (guarded_question _ _ _ _ _ _ _ _ _ Hc Hr Hq).
      destruct (builder_say (field r "responseText")) eqn:Hsay.
      * rewrite on_error_runs.
        by apply (path_question_rejected _ _ _ _ key r).
      * apply (path_question _ _ _ _ key r); try done. congruence.
      * apply (path_question _ _ _ _ key r); try done. congruence.
  - rewrite (prelude_inherited _ _ _ _ _ Hkey Hst Hk).
    destruct (truthy (prop body "SpeechResult")) eqn:Hu.
    + by apply (path_inherited_throws _ _ _ _ key).
    + unfold try_catch. rewrite (guarded_no_entry _ _ _ _ _ _ _ Hst), on_error_runs.
      by apply (path_inherited_apology _ _ _ _ key).
Qed.

End Evaluation.

(** ** The turn controller *)

Section Controller.
Context {B : Builtins}.

(** *** A turn, step by step *)

(** What the prelude returns: on a usable key the state of the call, with
    the utterance recorded, is in the store; on an inherited name the
    store is unchanged and the utterance, if any, has thrown. *)
Lemma prelude_shape store body m1 key :
  prelude body (Machine store [] []) = (m1, Ok key) ->
  ToString (prop body "CallSid") = Ok key /\
  ((usable store key /\
    m1 = Machine (<[key := heard (prop body "SpeechResult") (state_at store key)]> store)
           [] []) \/
   (store !! key = None /\ key ∈ Object_prototype_keys /\
    truthy (prop body "SpeechResult") = false /\ m1 = Machine store [] [])).
Proof.
  intros H.
  destruct (ToString (prop body "CallSid")) as [k|e] eqn:Hkey.
  - destruct (usable_or_inherited store k) as [Hu|[Hst Hk]].
    + rewrite (prelude_usable _ _ _ _ _ Hkey Hu) in H. simplify_eq. eauto.
    + rewrite (prelude_inherited _ _ _ _ _ Hkey Hst Hk) in H.
      destruct (truthy (prop body "SpeechResult")) eqn:Hq; simplify_eq.
      split; [done|]. right. done.
  - rewrite (prelude_no_key _ _ _ _ _ Hkey) in H. simplify_eq.
Qed.

Lemma obtain_reply_no_entry store tw tr key llm :
  store !! key = None ->
  obtain_reply key llm (Machine store tw tr) = (Machine store tw tr, Throw TypeError).
Proof.
  intros Hst. unfold obtain_reply, getLlmResponse, entry, bind. simpl.
  unfold store_get. rewrite Hst. by case_bool_decide.
Qed.

Lemma obtain_reply_entry store tw tr key st1 llm :
  obtain_reply key llm (Machine (<[key := st1]> store) tw tr)
  = (Machine (<[key := st1]> store) tw (tr ++ [Completion (request_for st1)]),
     match llm with
     | Rejects => Throw ApiError
     | Replies c =>
         match JSON_parse c with
         | Some r => Ok r
         | None => Throw SyntaxError
         end
     end).
Proof.
  unfold_handler. simpl.
  rewrite (store_get_entry _ _ st1) by apply lookup_insert_eq. simpl.
  destruct llm as [|c]; simpl; [done|]. by destruct (JSON_parse c).
Qed.

(** The handler holds a parsed reply exactly when the key is usable and
    the service answered with a text that parses. *)
Lemma reply_obtained store body llm m1 key m' r :
  prelude body (Machine store [] []) = (m1, Ok key) ->
  obtain_reply key llm m1 = (m', Ok r) ->
  ToString (prop body "CallSid") = Ok key /\ usable store key /\ reports llm r.
Proof.
  intros Hpre Hob.
  destruct (prelude_shape _ _ _ _ Hpre) as [Hkey [[Hu ->]|(Hst & _ & _ & ->)]].
  - rewrite obtain_reply_entry in Hob. split; [done|]. split; [done|].
    destruct llm as [|c]; [simplify_eq|].
    destruct (JSON_parse c) as [r'|] eqn:Hc; simplify_eq. by exists c.
  - rewrite (obtain_reply_no_entry _ _ _ _ _ Hst) in Hob. simplify_eq.
Qed.

Lemma reply_obtained_intro store body llm key r :
  ToString (prop body "CallSid") = Ok key -> usable store key -> reports llm r ->
  exists m1 m',
    prelude body (Machine store [] []) = (m1, Ok key) /\
    obtain_reply key llm m1 = (m', Ok r).
Proof.
  intros Hkey Hu (c & -> & Hc). eexists _, _.
  split; [by apply prelude_usable|]. rewrite obtain_reply_entry. by rewrite Hc.
Qed.

(** Lines 57-63 complete exactly when moreover the reply is neither
    [null] nor [undefined]. *)
Lemma reply_recorded_inv store body llm m1 key m2 r :
  prelude body (Machine store [] []) = (m1, Ok key) ->
  through_reply key llm m1 = (m2, Ok r) ->
  let st1 := heard (prop body "SpeechResult") (state_at store key) in
  ToString (prop body "CallSid") = Ok key /\ usable store key /\ reports llm r /\
  object_coercible r = true /\
  m2 = Machine (<[key := replied r st1]> store) []
         [Completion (request_for st1); ConsoleLog "Current State:"].
Proof.
  intros Hpre Hthrough st1.
  assert (exists m', obtain_reply key llm m1 = (m', Ok r)) as [m' Hob].
  { unfold through_reply, bind, ret in Hthrough.
    destruct (obtain_reply key llm m1) as [m' [r'|e]]; [|simplify_eq].
    destruct (record_reply key r' m') as [m'' [[]|e]]; simplify_eq. eauto. }
  destruct (reply_obtained _ _ _ _ _ _ _ Hpre Hob) as (Hkey & Hu & Hrep).
  rewrite (prelude_usable _ _ _ _ _ Hkey Hu) in Hpre. simplify_eq.
  destruct Hrep as (c & -> & Hc).
  destruct (object_coercible r) eqn:Hr.
  - rewrite (reply_recorded _ _ _ _ _ _ _ Hc Hr) in Hthrough. simplify_eq.
    repeat split; try done. by exists c.
  - exfalso. unfold through_reply in Hthrough. unfold bind at 1 in Hthrough.
    rewrite obtain_reply_entry, Hc in Hthrough.
    unfold record_reply, bind, entry, lift in Hthrough. simpl in Hthrough.
    rewrite (store_get_entry _ _ _ (lookup_insert_eq _ _ _)) in Hthrough.
    rewrite (get_field_not_coercible _ _ Hr) in Hthrough. simplify_eq.
Qed.

Lemma run_voice_usable store body llm db key :
  ToString (prop body "CallSid") = Ok key -> usable store key ->
  run_voice store body llm db
  = try_catch (guarded key body llm db) on_error
      (Machine (<[key := heard (prop body "SpeechResult") (state_at store key)]> store)
         [] []).
Proof.
  intros Hkey Hu. unfold run_voice, voice. unfold bind at 1.
  by rewrite (prelude_usable _ _ _ _ _ Hkey Hu).
Qed.

(** A turn whose reply reports completion: the farewell and the removal,
    or the apology when the builder rejects the farewell, after the query
    in both cases. *)
Lemma run_voice_complete store body llm db key r :
  ToString (prop body "CallSid") = Ok key -> usable store key ->
  reports llm r -> truthy (field r "isComplete") = true ->
  let st1 := heard (prop body "SpeechResult") (state_at store key) in
  let asked :=
    [Completion (request_for st1); ConsoleLog "Current State:";
     Query query (bound_values (prop body "To") (collectedData (replied r st1)));
     persistence_log (prop body "To") db] in
  run_voice store body llm db
  = match builder_say (field r "responseText") with
    | Rejected =>
        (Machine (<[key := replied r st1]> store) apology_document
           (asked ++ [ConsoleError turn_error_text]), Ok tt)
    | Skipped | Added => (Machine (delete key store) (farewell_document r) asked, Ok tt)
    end.
Proof.
  intros Hkey Hu (c & -> & Hc) Hq st1 asked.
  rewrite (run_voice_usable _ _ _ _ _ Hkey Hu). unfold try_catch.
  rewrite (guarded_complete _ _ _ _ _ _ _ _ _ Hc Hq).
  destruct (builder_say (field r "responseText")); by rewrite ?on_error_runs.
Qed.

(** A turn whose reply does not report completion: the question, or the
    apology after the gather when the builder rejects the question. *)
Lemma run_voice_question store body llm db key r :
  ToString (prop body "CallSid") = Ok key -> usable store key ->
  reports llm r -> object_coercible r = true ->
  truthy (field r "isComplete") = false ->
  let st1 := heard (prop body "SpeechResult") (state_at store key) in
  let asked := [Completion (request_for st1); ConsoleLog "Current State:"] in
  run_voice store body llm db
  = match builder_say (field r "responseText") with
    | Rejected =>
        (Machine (<[key := replied r st1]> store)
           (Gather gather_attrs [] :: apology_document)
           (asked ++ [ConsoleError turn_error_text]), Ok tt)
    | Skipped | Added =>
        (Machine (<[key := replied r st1]> store) (question_document r) asked, Ok tt)
    end.
Proof.
  intros Hkey Hu (c & -> & Hc) Hr Hq st1 asked.
  rewrite (run_voice_usable _ _ _ _ _ Hkey Hu). unfold try_catch.
  rewrite (guarded_question _ _ _ _ _ _ _ _ _ Hc Hr Hq).
  destruct (builder_say (field r "responseText")); by rewrite ?on_error_runs.
Qed.

Lemma queries_of_complete_trace a q vs p db :
  queries [Completion a; ConsoleLog "Current State:"; Query q vs; persistence_log p db]
  = [(q, vs)].
Proof. unfold persistence_log. by destruct db, (ToString p). Qed.

Lemma completions_of_complete_trace a q vs p db :
  completions [Completion a; ConsoleLog "Current State:"; Query q vs;
               persistence_log p db]
  = [a].
Proof. unfold persistence_log. by destruct db, (ToString p). Qed.

Lemma queries_of_rejected_trace a q vs p db text :
  queries [Completion a; ConsoleLog "Current State:"; Query q vs; persistence_log p db;
           ConsoleError text]
  = [(q, vs)].
Proof. unfold persistence_log. by destruct db, (ToString p). Qed.

Lemma completions_of_rejected_trace a q vs p db text :
  completions [Completion a; ConsoleLog "Current State:"; Query q vs;
               persistence_log p db; ConsoleError text]
  = [a].
Proof. unfold persistence_log. by destruct db, (ToString p). Qed.

Lemma queries_of_turn store body llm db key r :
  ToString (prop body "CallSid") = Ok key -> usable store key ->
  reports llm r -> truthy (field r "isComplete") = true ->
  let data :=
    collectedData (replied r (heard (prop body "SpeechResult") (state_at store key))) in
  queries (trace (run_voice store body llm db).1)
  = [(query, bound_values (prop body "To") data)].
Proof.
  intros Hkey Hu Hrep Hq data.
  rewrite (run_voice_complete _ _ _ _ _ _ Hkey Hu Hrep Hq).
  destruct (builder_say (field r "responseText")); project.
  - apply queries_of_rejected_trace.
  - apply queries_of_complete_trace.
  - apply queries_of_complete_trace.
Qed.

(** *** Completion, persistence and removal *)

(** C3, amended: the state of a call is removed on the turn whose reply
    reports completion (its [isComplete] is truthy, as [true] is) and
    whose farewell the TwiML builder accepts.  It is removed exactly once,
    by the last step of the turn: the entry is there when [savePatientData] is
    called and after it has issued its query, and still there when the
    farewell has been said; then it is deleted, and the store has no entry
    for the call.  When the builder rejects the farewell, the query has
    been issued and the entry stays.  In both cases the entries of the
    other calls are untouched, and on no other turn does an entry of the
    store disappear. *)
Theorem entry_removed_on_completion store body llm db :
  let out := run_voice store body llm db in
  (forall key m1 m' r,
     prelude body (Machine store [] []) = (m1, Ok key) ->
     obtain_reply key llm m1 = (m', Ok r) ->
     truthy (field r "isComplete") = true ->
     let farewell := field r "responseText" in
     exists m_reply m_saved st,
       through_reply key llm m1 = (m_reply, Ok r) /\
       conversationState m_reply !! key = Some st /\
       queries (trace m_reply) = [] /\
       savePatientData (prop body "To") (collectedData st) db m_reply
       = (m_saved, Ok tt) /\
       queries (trace m_saved)
       = [(query, [js_get (collectedData st) "full_name"; prop body "To";
                   js_get (collectedData st) "address";
                   js_get (collectedData st) "health_condition"])] /\
       conversationState m_saved !! key = Some st /\
       (builder_say farewell = Rejected ->
        twiml_say farewell m_saved = (m_saved, Throw BuilderError) /\
        out = on_error BuilderError m_saved /\
        conversationState out.1 !! key = Some st /\
        queries (trace out.1) = queries (trace m_saved)) /\
       (builder_say farewell <> Rejected ->
        exists m_said,
          twiml_say farewell m_saved = (m_said, Ok tt) /\
          conversationState m_said !! key = Some st /\
          out = (Machine (delete key (conversationState m_said))
                   (twiml m_said ++ [Hangup]) (trace m_said), Ok tt) /\
          conversationState out.1 !! key = None /\
          queries (trace out.1) = queries (trace m_saved)) /\
       (forall k, k <> key -> conversationState out.1 !! k = store !! k))
  /\
  (forall k,
     is_Some (store !! k) -> conversationState out.1 !! k = None ->
     exists m1 m' r,
       prelude body (Machine store [] []) = (m1, Ok k) /\
       obtain_reply k llm m1 = (m', Ok r) /\
       truthy (field r "isComplete") = true /\
       builder_say (field r "responseText") <> Rejected /\
       length (queries (trace out.1)) = 1).
Proof.
  intros out. split.
  - intros key m1 m' r Hpre Hob Hq farewell.
    destruct (reply_obtained _ _ _ _ _ _ _ Hpre Hob) as (Hkey & Hu & Hrep).
    pose proof (truthy_field_coercible _ _ Hq) as Hr.
    pose proof Hrep as (c & -> & Hc).
    rewrite (prelude_usable _ _ _ _ _ Hkey Hu) in Hpre. simplify_eq.
    set (st1 := heard (prop body "SpeechResult") (state_at store key)).
    eexists _, _, (replied r st1).
    split; [by apply reply_recorded|]. project.
    split; [apply lookup_insert_eq|]. split; [done|].
    split; [apply savePatientData_runs|]. project.
    split; [apply queries_of_complete_trace|]. split; [apply lookup_insert_eq|].
    subst out. rewrite (run_voice_complete _ _ _ _ _ _ Hkey Hu Hrep Hq).
    rewrite twiml_say_runs, on_error_runs. fold farewell st1.
    split; [|split].
    + intros ->. project. split; [done|]. split; [done|].
      split; [apply lookup_insert_eq|].
      by rewrite queries_of_rejected_trace, queries_of_complete_trace.
    + intros Hsay. eexists.
      split; [by destruct (builder_say farewell)|]. project.
      split; [apply lookup_insert_eq|].
      destruct (builder_say farewell); [done| |]; project;
        rewrite delete_insert_eq; (split; [done|]);
        (split; [apply lookup_delete_eq|done]).
    + intros k Hk. destruct (builder_say farewell); project;
        by rewrite ?lookup_insert_ne, ?lookup_delete_ne.
  - intros k [st Hst] Hgone. subst out.
    destruct (run_voice_path store body llm db); simpl in Hgone; try congruence;
      try (destruct (decide (key = k)) as [->|Hne];
           [by rewrite lookup_insert_eq in Hgone
           |rewrite lookup_insert_ne in Hgone by done; congruence]).
    destruct (decide (key = k)) as [->|Hne].
    + destruct (reply_obtained_intro store body llm k r) as (m1 & m' & ? & ?);
        try done.
      exists m1, m', r. project.
      by rewrite queries_of_complete_trace.
    + rewrite lookup_delete_ne in Hgone by done. congruence.
Qed.

(** C4, amended: on a turn whose reply reports completion the handler
    answers, and what it answers, the store it leaves and the query it
    issues are the same whether the database accepts the query or not; a
    failure only changes one line printed on the console.  When the TwiML
    builder adds the farewell, the caller hears it, the call ends and the
    state is removed. *)
Theorem persistence_failure_is_swallowed store body llm db key m1 m' r :
  prelude body (Machine store [] []) = (m1, Ok key) ->
  obtain_reply key llm m1 = (m', Ok r) ->
  truthy (field r "isComplete") = true ->
  let out := run_voice store body llm db in
  (exists m, out = (m, Ok tt)) /\
  (forall db',
     sent (run_voice store body llm db') = sent out /\
     conversationState (run_voice store body llm db').1 = conversationState out.1 /\
     queries (trace (run_voice store body llm db').1) = queries (trace out.1)) /\
  (builder_say (field r "responseText") <> Rejected ->
   sent out = Some (said (field r "responseText") ++ [Hangup]) /\
   conversationState out.1 !! key = None) /\
  (builder_say (field r "responseText") = Added ->
   sent out = Some [Say (field r "responseText"); Hangup] /\
   conversationState out.1 !! key = None) /\
  (db = DbFails ->
   exists before after,
     trace out.1 = before ++ [ConsoleError "Error saving data to database:"] ++ after /\
     trace (run_voice store body llm DbOk).1
     = before ++ [persistence_log (prop body "To") DbOk] ++ after).
Proof.
  intros Hpre Hob Hq out. subst out.
  destruct (reply_obtained _ _ _ _ _ _ _ Hpre Hob) as (Hkey & Hu & Hrep).
  rewrite (run_voice_complete _ _ _ _ _ _ Hkey Hu Hrep Hq).
  split; [destruct (builder_say (field r "responseText")); eauto|]. split; [|split; [|split]].
  - intros db'. rewrite (run_voice_complete _ _ _ _ _ _ Hkey Hu Hrep Hq).
    destruct (builder_say (field r "responseText")); project;
      by rewrite ?queries_of_rejected_trace, ?queries_of_complete_trace.
  - intros Hsay. unfold said.
    destruct (builder_say (field r "responseText")) eqn:E; [done| |]; project;
      unfold farewell_document, said; rewrite E; (split; [done|apply lookup_delete_eq]).
  - intros E. unfold farewell_document, said. rewrite E. project.
    split; [done|apply lookup_delete_eq].
  - intros ->. rewrite (run_voice_complete _ _ _ _ _ _ Hkey Hu Hrep Hq).
    destruct (builder_say (field r "responseText")); project.
    + eexists [_; _; _], [_]. split; reflexivity.
    + eexists [_; _; _], []. split; reflexivity.
    + eexists [_; _; _], []. split; reflexivity.
Qed.

(** A turn whose reply reports completion issues one query, with the name,
    the address and the condition read from the collected data and the
    called number from the webhook's [To]. *)
Lemma completion_turn_issues_one_query store body llm db key m1 m' r :
  prelude body (Machine store [] []) = (m1, Ok key) ->
  obtain_reply key llm m1 = (m', Ok r) ->
  truthy (field r "isComplete") = true ->
  let data :=
    collectedData (replied r (heard (prop body "SpeechResult") (state_at store key))) in
  queries (trace (run_voice store body llm db).1)
  = [(query, [js_get data "full_name"; prop body "To"; js_get data "address";
              js_get data "health_condition"])].
Proof.
  intros Hpre Hob Hq data.
  destruct (reply_obtained _ _ _ _ _ _ _ Hpre Hob) as (Hkey & Hu & Hrep).
  by apply queries_of_turn.
Qed.

(** *** Exceptions *)

(** Lines 57-63 raise before they write: the store and the document are
    then as they were when the block was entered. *)
Lemma through_reply_throws key llm m m' e :
  through_reply key llm m = (m', Throw e) ->
  conversationState m' = conversationState m /\ twiml m' = twiml m.
Proof.
  destruct m as [store tw tr]. intros H.
  destruct (store !! key) as [st1|] eqn:Hst.
  - assert (store = <[key := st1]> store) as Heq by (by rewrite insert_id).
    rewrite Heq in H. rewrite Heq. clear Heq.
    unfold through_reply in H. unfold bind at 1 in H.
    rewrite obtain_reply_entry in H.
    destruct llm as [|c]; [by simplify_eq|].
    destruct (JSON_parse c) as [r|] eqn:Hc; [|by simplify_eq].
    destruct (object_coercible r) eqn:Hr.
    + exfalso.
      pose proof (reply_recorded store tw tr key st1 c r Hc Hr) as Hok.
      unfold through_reply in Hok. unfold bind at 1 in Hok.
      rewrite obtain_reply_entry, Hc in Hok. rewrite Hok in H. simplify_eq.
    + unfold record_reply, bind, entry, lift in H. simpl in H.
      rewrite (store_get_entry _ _ _ (lookup_insert_eq _ _ _)) in H.
      rewrite (get_field_not_coercible _ _ Hr) in H. by simplify_eq.
  - unfold through_reply in H. unfold bind at 1 in H.
    rewrite (obtain_reply_no_entry _ _ _ _ _ Hst) in H. by simplify_eq.
Qed.

(** Where the guarded block raises: in lines 57-63, before anything is
    written, or at the [say] of the branch, when the reply is recorded,
    the query of a completion turn issued and the gather of a question
    turn in the document. *)
Lemma guarded_throws store tw tr body key st1 llm db m2 e :
  guarded key body llm db (Machine (<[key := st1]> store) tw tr) = (m2, Throw e) ->
  (conversationState m2 = <[key := st1]> store /\ twiml m2 = tw /\
   forall r, reports llm r -> object_coercible r = false) \/
  (exists r,
     reports llm r /\ object_coercible r = true /\
     builder_say (field r "responseText") = Rejected /\ e = BuilderError /\
     conversationState m2 = <[key := replied r st1]> store /\
     twiml m2
     = tw ++ (if truthy (field r "isComplete") then [] else [Gather gather_attrs []])).
Proof.
  intros H. destruct llm as [|c].
  { rewrite guarded_rejects in H. simplify_eq. left. project.
    split; [done|]. split; [done|]. by intros r (c & Hc & _). }
  destruct (JSON_parse c) as [r|] eqn:Hc.
  2:{ rewrite (guarded_unparseable _ _ _ _ _ _ _ _ Hc) in H. simplify_eq. left.
      project. split; [done|]. split; [done|]. intros r (c' & ? & ?). congruence. }
  destruct (object_coercible r) eqn:Hr.
  2:{ rewrite (guarded_not_object _ _ _ _ _ _ _ _ _ Hc Hr) in H. simplify_eq. left.
      project. split; [done|]. split; [done|]. intros r' (c' & ? & ?). congruence. }
  right. exists r. split; [by exists c|]. split; [done|].
  destruct (truthy (field r "isComplete")) eqn:Hq.
  - rewrite (guarded_complete _ _ _ _ _ _ _ _ _ Hc Hq) in H.
    destruct (builder_say (field r "responseText")); simplify_eq.
    project. by rewrite app_nil_r.
  - rewrite (guarded_question _ _ _ _ _ _ _ _ _ Hc Hr Hq) in H.
    destruct (builder_say (field r "responseText")); by simplify_eq.
Qed.

(** A reply that is not JSON raises inside the guarded block: a
    SyntaxError at the parse, or before that the TypeError of a state
    without history. *)
Lemma unparseable_reply_raises store body key m1 c db :
  prelude body (Machine store [] []) = (m1, Ok key) ->
  JSON_parse c = None ->
  exists m2 e, guarded key body (Replies c) db m1 = (m2, Throw e).
Proof.
  intros Hpre Hc.
  destruct (prelude_shape _ _ _ _ Hpre) as [Hkey [[Hu ->]|(Hst & Hk & _ & ->)]].
  - eexists _, _. by apply guarded_unparseable.
  - eexists _, _. by apply guarded_no_entry.
Qed.

(** The guarded block returns when lines 57-63 do and the builder does not
    reject the text of the reply. *)
Lemma guarded_returns store body llm db m1 key m3 :
  prelude body (Machine store [] []) = (m1, Ok key) ->
  guarded key body llm db m1 = (m3, Ok tt) ->
  exists m2 r,
    through_reply key llm m1 = (m2, Ok r) /\
    builder_say (field r "responseText") <> Rejected /\
    run_voice store body llm db = (m3, Ok tt).
Proof.
  intros Hpre Hg.
  assert (run_voice store body llm db = (m3, Ok tt)) as Hrun.
  { unfold run_voice, voice. unfold bind at 1. rewrite Hpre.
    unfold try_catch. by rewrite Hg. }
  rewrite guarded_through in Hg. unfold bind at 1 in Hg.
  destruct (through_reply key llm m1) as [m2 [r|e]] eqn:Hthrough; [|simplify_eq].
  exists m2, r. split; [done|]. split; [|done].
  destruct (reply_recorded_inv _ _ _ _ _ _ _ Hpre Hthrough)
    as (Hkey & Hu & Hrep & Hr & ->).
  intros Hsay. destruct (truthy (field r "isComplete")) eqn:Hq.
  - rewrite (branch_complete _ _ _ _ _ (replied r _)) in Hg
      by (done || apply lookup_insert_eq).
    rewrite Hsay in Hg. simplify_eq.
  - rewrite branch_question in Hg by done. rewrite Hsay in Hg. simplify_eq.
Qed.

(** *** The history *)

(** C7, amended: on a turn that completes without exception the utterance
    is appended as a user message exactly when it is truthy (for a string:
    non-empty) and the reply as an assistant message after it; when the
    reply does not report completion the state stays in the store and the
    caller is sent a gather, in which the text of the reply is said when
    the TwiML builder adds it, and on a first turn without utterance the
    history is the assistant's message alone. *)
Theorem turn_appends_user_then_assistant store body llm db key m1 m3 :
  prelude body (Machine store [] []) = (m1, Ok key) ->
  guarded key body llm db m1 = (m3, Ok tt) ->
  let u := prop body "SpeechResult" in
  let out := run_voice store body llm db in
  exists m2 r st2,
    through_reply key llm m1 = (m2, Ok r) /\
    conversationState m2 !! key = Some st2 /\
    let reply := Message assistant (field r "responseText") in
    history st2
    = history (state_at store key)
        ++ (if truthy u then [Message user u] else []) ++ [reply] /\
    (truthy u = true ->
     exists earlier, history st2 = earlier ++ [Message user u; reply]) /\
    out = (m3, Ok tt) /\
    (truthy (field r "isComplete") = false ->
     conversationState out.1 !! key = Some st2 /\
     (builder_say (field r "responseText") = Added ->
      sent out = Some [Gather gather_attrs [Say (field r "responseText")]]) /\
     (builder_say (field r "responseText") = Skipped ->
      sent out = Some [Gather gather_attrs []]) /\
     (store !! key = None -> truthy u = false ->
      history st2 = [reply] /\ length (history st2) = 1)).
Proof.
  intros Hpre Hg u out.
  destruct (guarded_returns _ _ _ _ _ _ _ Hpre Hg) as (m2 & r & Hthrough & Hsay & Hrun).
  destruct (reply_recorded_inv _ _ _ _ _ _ _ Hpre Hthrough)
    as (Hkey & Hu & Hrep & Hr & ->).
  set (st1 := heard u (state_at store key)).
  eexists _, r, (replied r st1). split; [done|]. project.
  split; [apply lookup_insert_eq|].
  set (reply := Message assistant (field r "responseText")).
  assert (history (replied r st1)
          = history (state_at store key)
              ++ (if truthy u then [Message user u] else []) ++ [reply]) as Hh.
  { subst st1. unfold replied, heard. destruct (truthy u); simpl.
    - by rewrite <- app_assoc.
    - done. }
  split; [done|]. split.
  { intros Hsaid. exists (history (state_at store key)).
    rewrite Hh, Hsaid. done. }
  split; [done|]. intros Hq. subst out.
  rewrite (run_voice_question _ _ _ _ _ _ Hkey Hu Hrep Hr Hq).
  unfold question_document, said.
  destruct (builder_say (field r "responseText")); [done| |]; project;
    (split; [apply lookup_insert_eq|]); (split; [done|]); (split; [done|]);
    intros Hnew Hquiet; rewrite Hh; unfold state_at; by rewrite Hnew, Hquiet.
Qed.

(** A turn that records a reply keeps every own key the collected data
    had before it. *)
Lemma turn_keeps_collected_keys store body llm key m1 m2 r k :
  prelude body (Machine store [] []) = (m1, Ok key) ->
  through_reply key llm m1 = (m2, Ok r) ->
  has_key k (own (collectedData (state_at store key))) = true ->
  exists st2,
    conversationState m2 !! key = Some st2 /\
    has_key k (own (collectedData st2)) = true.
Proof.
  intros Hpre Hthrough Hk.
  destruct (reply_recorded_inv _ _ _ _ _ _ _ Hpre Hthrough)
    as (_ & _ & _ & _ & ->).
  eexists. split; [apply lookup_insert_eq|]. simpl.
  apply Object_assign_keeps_keys. unfold heard.
  by destruct (truthy (prop body "SpeechResult")).
Qed.

(** *** The completion request *)

(** On a usable key exactly one request is sent, built from the state the
    store holds once the utterance is recorded. *)
Lemma one_completion_request store body llm db key :
  ToString (prop body "CallSid") = Ok key -> usable store key ->
  completions (trace (run_voice store body llm db).1)
  = [request_for (heard (prop body "SpeechResult") (state_at store key))].
Proof.
  intros Hkey Hu.
  destruct (run_voice_path store body llm db); same_key; project;
    try done; try not_usable.
  - apply completions_of_complete_trace.
  - apply completions_of_rejected_trace.
Qed.

(** C9: the request sent to the completion service is the system prompt,
    then the history of the call as stored, in order, then one system
    message made of the collected data and the instruction to produce the
    next JSON response. *)
Theorem completion_request_shape store body llm db req :
  req ∈ completions (trace (run_voice store body llm db).1) ->
  exists key m1 st,
    prelude body (Machine store [] []) = (m1, Ok key) /\
    conversationState m1 !! key = Some st /\
    messages req
    = [Message system (VStr systemPrompt)]
        ++ history st
        ++ [Message system
              (VStr ("Current collected data: "
                       +:+ JSON_stringify (own (collectedData st))
                       +:+ ". Now, determine the next question based on the script and the user's last answer. Generate the next JSON response."))] /\
    model req = "google/gemini-flash-1.5" /\
    response_format req = ResponseFormat "json_object" /\
    completions (trace (run_voice store body llm db).1) = [req].
Proof.
  intros Hreq.
  destruct (ToString (prop body "CallSid")) as [key|e] eqn:Hkey.
  - destruct (usable_or_inherited store key) as [Hu|[Hst Hk]].
    + rewrite (one_completion_request _ _ _ _ _ Hkey Hu) in Hreq |- *.
      apply list_elem_of_singleton in Hreq as ->.
      eexists key, _, _. split; [by apply prelude_usable|]. project.
      split; [apply lookup_insert_eq|]. done.
    + exfalso. destruct (run_voice_path store body llm db);
        same_key; try not_usable; by apply elem_of_nil in Hreq.
  - exfalso. destruct (run_voice_path store body llm db);
      same_key; by apply elem_of_nil in Hreq.
Qed.

Lemma undefined_usable store : usable store "undefined".
Proof.
  right. unfold Object_prototype_keys. intros H.
  repeat (apply elem_of_cons in H as [H|H]; [discriminate H|]).
  by apply elem_of_nil in H.
Qed.

Lemma run_voice_responds store body llm db key :
  ToString (prop body "CallSid") = Ok key -> usable store key ->
  exists m, run_voice store body llm db = (m, Ok tt).
Proof.
  intros Hkey Hu.
  destruct (run_voice_path store body llm db); same_key; eauto; not_usable.
Qed.

(** C10: a webhook without [CallSid] is served like any other: the
    handler answers, and the state it creates or uses is the entry of the
    store under the key [undefined], whatever else the request carries;
    so the next such request continues from the history the first left. *)
Theorem missing_CallSid_shares_undefined store body llm db :
  prop body "CallSid" = VUndef ->
  let u := prop body "SpeechResult" in
  let out := run_voice store body llm db in
  (exists m, out = (m, Ok tt)) /\
  (exists m1,
     prelude body (Machine store [] []) = (m1, Ok "undefined") /\
     conversationState m1 !! "undefined"
     = Some (heard u (state_at store "undefined"))) /\
  completions (trace out.1) = [request_for (heard u (state_at store "undefined"))] /\
  (forall k, k <> "undefined" -> conversationState out.1 !! k = store !! k) /\
  (forall r,
     reports llm r -> object_coercible r = true ->
     truthy (field r "isComplete") = false ->
     let left := replied r (heard u (state_at store "undefined")) in
     conversationState out.1 !! "undefined" = Some left /\
     forall body' llm' db',
       prop body' "CallSid" = VUndef ->
       completions (trace (run_voice (conversationState out.1) body' llm' db').1)
       = [request_for (heard (prop body' "SpeechResult") left)]).
Proof.
  intros Hno u out.
  assert (ToString (prop body "CallSid") = Ok "undefined") as Hkey
    by (by rewrite Hno).
  pose proof (undefined_usable store) as Hu.
  split; [by apply (run_voice_responds _ _ _ _ "undefined")|].
  split.
  { eexists. split; [by apply prelude_usable|]. apply lookup_insert_eq. }
  split; [by apply one_completion_request|].
  split.
  { intros k Hk. subst out.
    destruct (run_voice_path store body llm db); same_key; project;
      try done; try (by rewrite lookup_insert_ne);
      try (by rewrite lookup_delete_ne). }
  intros r Hrep Hr Hq left. subst out.
  rewrite (run_voice_question _ _ _ _ _ _ Hkey Hu Hrep Hr Hq).
  assert (forall doc doc' tr tr',
            conversationState
              (match builder_say (field r "responseText") with
               | Rejected => (Machine (<["undefined" := left]> store) doc tr, Ok tt)
               | Skipped | Added =>
                   (Machine (<["undefined" := left]> store) doc' tr', Ok tt)
               end).1 = <["undefined" := left]> store) as ->
    by (intros; by destruct (builder_say (field r "responseText"))).
  split; [apply lookup_insert_eq|].
  intros body' llm' db' Hno'.
  rewrite (one_completion_request _ _ _ _ "undefined").
  - unfold state_at. by rewrite lookup_insert_eq.
  - by rewrite Hno'.
  - apply undefined_usable.
Qed.

(** ** The call-initiation endpoint *)

(** C5, amended: the endpoint reads [phoneNumber] and [ngrokUrl] from the
    body.  With both present it asks the telephony client for a call whose
    webhook is [ngrokUrl + "/voice"], and answers 200 with the message and
    the call identifier, or 500 with the message and the error when the
    client fails; with either missing (or otherwise falsy, such as the
    empty string) it answers 400 and places no call. *)
Theorem initiate_call_contract sender store body tel :
  let phoneNumber := prop body "phoneNumber" in
  let ngrokUrl := prop body "ngrokUrl" in
  let out := initiate_call sender body tel (Machine store [] []) in
  (forall base callee,
     truthy phoneNumber = true -> truthy ngrokUrl = true ->
     ToString ngrokUrl = Ok base -> ToString phoneNumber = Ok callee ->
     calls (trace out.1) = [CallRequest (base +:+ "/voice") phoneNumber sender] /\
     out.2
     = Ok match tel with
          | CallCreated sid =>
              HttpResponse 200
                (VObj [("message", VStr "Call has been successfully initiated!");
                       ("callSid", VStr sid)])
          | CallFails message =>
              HttpResponse 500
                (VObj [("message", VStr "Failed to initiate call.");
                       ("error", VStr message)])
          end) /\
  (truthy phoneNumber = false \/ truthy ngrokUrl = false ->
   out.2
   = Ok (HttpResponse 400
           (VObj [("message", VStr "Both phoneNumber and ngrokUrl are required.")])) /\
   calls (trace out.1) = []).
Proof.
  intros phoneNumber ngrokUrl out. split.
  - intros base callee Hp Hn Hbase Hcallee. subst out. unfold initiate_call.
    fold phoneNumber ngrokUrl. rewrite Hp, Hn. simpl.
    unfold bind, lift, emit, ret. rewrite Hbase, Hcallee. simpl.
    destruct tel; done.
  - intros Hmissing. subst out. unfold initiate_call.
    fold phoneNumber ngrokUrl.
    assert (negb (truthy phoneNumber) || negb (truthy ngrokUrl) = true) as ->.
    { destruct Hmissing as [-> | ->]; simpl; [done|]. apply orb_true_r. }
    done.
Qed.

(** ** The store, in general *)

(** On a key that is an entry or not an inherited name, fetch-or-create
    returns the entry or creates the empty state, and doing it again
    changes nothing. *)
Lemma get_or_create_usable store tw tr key :
  usable store key ->
  get_or_create key (Machine store tw tr)
  = (Machine (<[key := state_at store key]> store) tw tr, Ok tt).
Proof.
  intros Hu. unfold get_or_create, state_at.
  destruct (store !! key) as [st|] eqn:Hst; simpl.
  - rewrite (store_get_entry _ _ _ Hst). by rewrite insert_id.
  - destruct Hu as [[? ?]|Hk]; [congruence|].
    by rewrite (store_get_missing _ _ Hst Hk).
Qed.

Lemma get_or_create_again store tw tr key :
  usable store key ->
  (get_or_create key ;; get_or_create key) (Machine store tw tr)
  = get_or_create key (Machine store tw tr).
Proof.
  intros Hu. unfold bind. rewrite (get_or_create_usable _ _ _ _ Hu).
  unfold get_or_create. simpl.
  by rewrite (store_get_entry _ _ _ (lookup_insert_eq _ _ _)).
Qed.

End Controller.

(** * Examples, on the sample inputs *)

Lemma sample_key_usable store : usable store "CA0001".
Proof.
  right. unfold Object_prototype_keys. intros H.
  repeat (apply elem_of_cons in H as [H|H]; [discriminate H|]).
  by apply elem_of_nil in H.
Qed.

Lemma reports_question : @reports sample_builtins (Replies question_text) reply_question.
Proof. exists question_text. split; reflexivity. Qed.

(** C1: on a completion turn [savePatientData] issues one query, with the
    name, the called number, the address and the condition as bind values,
    into the columns [full_name, phone_number, address, health_condition]
    and with [phone_number] as conflict target; but the text of the
    statement has [.env$4] where the fourth bind parameter belongs, so the
    statement sent is not the upsert of the four values. *)
Lemma savePatientData_statement_is_malformed :
  let out := @run_voice sample_builtins store_after_question answer_webhook
               (Replies complete_text) DbOk in
  queries (trace out.1)
  = [(query, [VStr "Meera Devi"; VStr "+15550100"; VStr "12 Lake Road";
              VStr "persistent cough"])] /\
  insert_columns query
  = Some ["full_name"; "phone_number"; "address"; "health_condition"] /\
  conflict_target query = Some "phone_number" /\
  update_assignments query
  = Some ["full_name = EXCLUDED.full_name"; "address = EXCLUDED.address";
          "health_condition = EXCLUDED.health_condition"; "created_at = NOW()"] /\
  value_expressions query = Some ["$1"; "$2"; "$3"; ".env$4"] /\
  value_expressions query <> Some (map placeholder [1; 2; 3; 4]).
Proof. vm_compute. repeat split; try reflexivity. discriminate. Qed.

(** C2: a question whose text holds the control character U+0001 is
    rejected by the builder when the gather is already in the document;
    the caller is sent the empty gather, then the apology and the hangup,
    not the apology followed by the hangup.  The state of the call is
    kept, with the reply recorded. *)
Lemma apology_follows_empty_gather :
  let reply_text := sample_stringify reply_garbled in
  let out := @run_voice sample_builtins store_after_question answer_webhook
               (Replies reply_text) DbOk in
  let m1 := (prelude answer_webhook (Machine store_after_question [] [])).1 in
  @JSON_parse sample_builtins reply_text = Some reply_garbled /\
  field reply_garbled "isComplete" = VBool false /\
  @builder_say sample_builtins (field reply_garbled "responseText") = Rejected /\
  (exists m2,
     @guarded sample_builtins "CA0001" answer_webhook (Replies reply_text) DbOk m1
     = (m2, Throw BuilderError) /\
     twiml m2 = [Gather gather_attrs []]) /\
  sent out = Some [Gather gather_attrs []; Say (VStr apology); Hangup] /\
  sent out <> Some [Say (VStr apology); Hangup] /\
  conversationState out.1 !! "CA0001"
  = Some (State [Message assistant (VStr "Hello, I am Asha. May I know your full name?");
                 Message user (VStr "I have a persistent cough");
                 Message assistant (VStr garbled)]
                (JsObject [("full_name", VStr "Meera Devi")] ProtoObject)).
Proof.
  vm_compute. repeat split; try reflexivity.
  - eexists. split; reflexivity.
  - discriminate.
Qed.

(** C3, as stated, fails: on a turn whose reply has [isComplete: true]
    and a farewell the builder rejects, the query is issued, the caller
    hears the apology and the state of the call stays in the store; and
    the state is removed on a turn whose [isComplete] is [1], not
    [true]. *)
Lemma rejected_farewell_keeps_entry :
  let out := @run_voice sample_builtins store_after_question answer_webhook
               (Replies (sample_stringify reply_farewell_garbled)) DbOk in
  let out1 := @run_voice sample_builtins store_after_question answer_webhook
                (Replies (sample_stringify reply_complete_one)) DbOk in
  @JSON_parse sample_builtins (sample_stringify reply_farewell_garbled)
  = Some reply_farewell_garbled /\
  field reply_farewell_garbled "isComplete" = VBool true /\
  queries (trace out.1)
  = [(query, [VStr "Meera Devi"; VStr "+15550100"; VStr "12 Lake Road";
              VStr "persistent cough"])] /\
  sent out = Some [Say (VStr apology); Hangup] /\
  conversationState out.1 !! "CA0001" <> None /\
  field reply_complete_one "isComplete" = VNum "1" /\
  store_after_question !! "CA0001" <> None /\
  conversationState out1.1 !! "CA0001" = None.
Proof. vm_compute. repeat split; try reflexivity; discriminate. Qed.

(** The amended C3 on the completing turn of call [CA0001]. *)
Lemma entry_removed_on_completion_witness :
  let out := @run_voice sample_builtins store_after_question answer_webhook
               (Replies complete_text) DbOk in
  conversationState out.1 !! "CA0001" = None /\
  length (queries (trace out.1)) = 1.
Proof.
  pose (m1 := (prelude answer_webhook (Machine store_after_question [] [])).1).
  pose (m' := (@obtain_reply sample_builtins "CA0001" (Replies complete_text) m1).1).
  destruct (@entry_removed_on_completion sample_builtins store_after_question
              answer_webhook (Replies complete_text) DbOk) as [Hremoved Honly].
  destruct (Hremoved "CA0001" m1 m' reply_complete)
    as (m_reply & m_saved & st & _ & _ & _ & _ & _ & _ & _ & Haccepted & _).
  - vm_compute. reflexivity.
  - vm_compute. reflexivity.
  - reflexivity.
  - destruct Haccepted as (m_said & _ & _ & _ & Hgone & _); [discriminate|].
    split; [exact Hgone|].
    destruct (Honly "CA0001") as (? & ? & ? & _ & _ & _ & _ & Hone).
    + vm_compute. eauto.
    + exact Hgone.
    + exact Hone.
Defined.

(** C4, as stated, fails: on a turn whose reply has [isComplete: true]
    and a farewell the builder rejects, the caller hears the apology, not
    the farewell, and the state is kept, here with a database that fails;
    and for the farewell [null] the document is the hangup alone. *)
Lemma completion_turn_may_apologise :
  let out := @run_voice sample_builtins store_after_question answer_webhook
               (Replies (sample_stringify reply_farewell_garbled)) DbFails in
  let mute := @run_voice sample_builtins store_after_question answer_webhook
                (Replies (sample_stringify reply_farewell_mute)) DbOk in
  field reply_farewell_garbled "isComplete" = VBool true /\
  sent out = Some [Say (VStr apology); Hangup] /\
  sent out <> Some [Say (field reply_farewell_garbled "responseText"); Hangup] /\
  conversationState out.1 !! "CA0001" <> None /\
  field reply_farewell_mute "isComplete" = VBool true /\
  field reply_farewell_mute "responseText" = VNull /\
  sent mute = Some [Hangup].
Proof. vm_compute. repeat split; try reflexivity; discriminate. Qed.

(** The amended C4 on the completing turn of call [CA0001], with a
    database that fails. *)
Lemma persistence_failure_is_swallowed_witness :
  let out := @run_voice sample_builtins store_after_question answer_webhook
               (Replies complete_text) DbFails in
  sent out
  = Some [Say (VStr "Thank you for answering. We have recorded your details.");
          Hangup] /\
  conversationState out.1 !! "CA0001" = None.
Proof.
  pose (m1 := (prelude answer_webhook (Machine store_after_question [] [])).1).
  pose (m' := (@obtain_reply sample_builtins "CA0001" (Replies complete_text) m1).1).
  destruct (@persistence_failure_is_swallowed sample_builtins store_after_question
              answer_webhook (Replies complete_text) DbFails "CA0001" m1 m'
              reply_complete)
    as (_ & _ & _ & Hadded & _).
  - vm_compute. reflexivity.
  - vm_compute. reflexivity.
  - reflexivity.
  - apply Hadded. reflexivity.
Defined.

(** C5, as stated, fails: a body that carries the base URL as
    [callbackBaseUrl] is answered 400 and no call is placed. *)
Lemma initiate_call_ignores_callbackBaseUrl :
  let out := initiate_call (VStr "+15550199") initiate_body_other_name
               (CallCreated "CA0002") (Machine ∅ [] []) in
  prop initiate_body_other_name "phoneNumber" = VStr "+15550100" /\
  prop initiate_body_other_name "callbackBaseUrl" = VStr "https://intake.example.org" /\
  out.2
  = Ok (HttpResponse 400
          (VObj [("message", VStr "Both phoneNumber and ngrokUrl are required.")])) /\
  calls (trace out.1) = [].
Proof. vm_compute. repeat split; reflexivity. Qed.

(** The amended C5 on a body with both fields. *)
Lemma initiate_call_contract_witness :
  let out := initiate_call (VStr "+15550199") initiate_body (CallCreated "CA0002")
               (Machine ∅ [] []) in
  calls (trace out.1)
  = [CallRequest "https://intake.example.org/voice" (VStr "+15550100")
       (VStr "+15550199")] /\
  out.2
  = Ok (HttpResponse 200
          (VObj [("message", VStr "Call has been successfully initiated!");
                 ("callSid", VStr "CA0002")])).
Proof.
  destruct (initiate_call_contract (VStr "+15550199") ∅ initiate_body
              (CallCreated "CA0002")) as [Hcall _].
  apply (Hcall "https://intake.example.org" "+15550100"); reflexivity.
Defined.

(** C6: for the call identifier [constructor] the store has no entry, yet
    fetch-or-create creates none, because the read finds the inherited
    property; the state then used has no history, and a turn with an
    utterance ends in a TypeError. *)
Lemma get_or_create_skips_inherited_name :
  let start := Machine ∅ [] [] in
  conversationState start !! "constructor" = None /\
  get_or_create "constructor" start = (start, Ok tt) /\
  entry "constructor" start = (start, Throw TypeError) /\
  @run_voice sample_builtins ∅ inherited_webhook (Replies question_text) DbOk
  = (start, Throw TypeError).
Proof. vm_compute. repeat split; reflexivity. Qed.

(** C7, as stated, fails: on a first turn without utterance whose reply
    reports completion the caller hears the reply and the call ends, and
    no state, hence no history of length 1, is left; and on a first turn
    without utterance whose reply has the text [null] the gather says
    nothing. *)
Lemma first_turn_may_hang_up :
  let out := @run_voice sample_builtins ∅ first_webhook
               (Replies complete_text) DbOk in
  let mute := @run_voice sample_builtins ∅ first_webhook
                (Replies (sample_stringify reply_mute)) DbOk in
  (∅ : gmap string ConversationState) !! "CA0001" = None /\
  prop first_webhook "SpeechResult" = VUndef /\
  out.2 = Ok tt /\
  sent out
  = Some [Say (VStr "Thank you for answering. We have recorded your details.");
          Hangup] /\
  sent out <> Some [Gather gather_attrs
                      [Say (VStr "Thank you for answering. We have recorded your details.")]] /\
  conversationState out.1 !! "CA0001" = None /\
  field reply_mute "isComplete" = VBool false /\
  sent mute = Some [Gather gather_attrs []].
Proof. vm_compute. repeat split; try reflexivity. discriminate. Qed.

(** The amended C7 on the first turn of call [CA0001]. *)
Lemma turn_appends_user_then_assistant_witness :
  let out := @run_voice sample_builtins ∅ first_webhook
               (Replies question_text) DbOk in
  sent out
  = Some [Gather gather_attrs
            [Say (VStr "Hello, I am Asha. May I know your full name?")]] /\
  exists st, conversationState out.1 !! "CA0001" = Some st /\
             length (history st) = 1.
Proof.
  pose (m1 := (prelude first_webhook (Machine ∅ [] [])).1).
  pose (m3 := (@guarded sample_builtins "CA0001" first_webhook
                 (Replies question_text) DbOk m1).1).
  destruct (@turn_appends_user_then_assistant sample_builtins ∅ first_webhook
              (Replies question_text) DbOk "CA0001" m1 m3)
    as (m2 & r & st2 & Hthrough & _ & _ & _ & _ & Hfirst).
  - vm_compute. reflexivity.
  - vm_compute. reflexivity.
  - assert (r = reply_question) as ->
      by (vm_compute in Hthrough |- *; congruence).
    destruct Hfirst as (Hkept & Hsent & _ & Hone); [reflexivity|].
    split; [apply Hsent; reflexivity|]. exists st2. split; [exact Hkept|].
    apply Hone; reflexivity.
Defined.

(** C8: merging the extraction [{"__proto__": null}] writes no key, it
    sets the prototype of the collected data to [null]; merging it a
    second time then creates an own property [__proto__].  The merge is
    not a key overwrite here, and twice is not once; two turns of a call
    whose replies carry this extraction show it in the store. *)
Lemma merge_of_proto_key_not_idempotent :
  let once := Object_assign empty_object proto_extraction in
  let twice := Object_assign once proto_extraction in
  let turn store body :=
    conversationState
      (@run_voice sample_builtins store body (Replies proto_text) DbOk).1 in
  once = JsObject [] ProtoNull /\
  twice = JsObject [("__proto__", VNull)] ProtoNull /\
  twice <> once /\
  collectedData <$> turn ∅ first_webhook !! "CA0001" = Some once /\
  collectedData <$> turn (turn ∅ first_webhook) answer_webhook !! "CA0001"
  = Some twice.
Proof. vm_compute. repeat split; try reflexivity. discriminate. Qed.

(** The example of the specification: [{full_name: "A"}] merged twice. *)
Lemma merge_full_name_twice :
  let extraction := VObj [("full_name", VStr "A")] in
  Object_assign (Object_assign empty_object extraction) extraction
  = JsObject [("full_name", VStr "A")] ProtoObject.
Proof. reflexivity. Qed.

(** C9 on the second turn of call [CA0001]. *)
Lemma completion_request_shape_witness :
  let out := @run_voice sample_builtins store_after_question answer_webhook
               (Replies complete_text) DbOk in
  exists req,
    completions (trace out.1) = [req] /\
    map role (messages req) = [system; assistant; user; system].
Proof.
  pose (req := @request_for sample_builtins
                 (State [Message assistant (VStr "Hello, I am Asha. May I know your full name?");
                         Message user (VStr "I have a persistent cough")]
                        empty_object)).
  destruct (@completion_request_shape sample_builtins store_after_question
              answer_webhook (Replies complete_text) DbOk req)
    as (key & m1 & st & Hpre & Hst & Hmsg & _ & _ & Hone).
  - vm_compute. apply list_elem_of_here.
  - exists req. split; [exact Hone|]. reflexivity.
Defined.

(** C10 on a webhook without call identifier. *)
Lemma missing_CallSid_shares_undefined_witness :
  let out := @run_voice sample_builtins ∅ anonymous_webhook
               (Replies question_text) DbOk in
  (exists m, out = (m, Ok tt)) /\
  is_Some (conversationState out.1 !! "undefined").
Proof.
  destruct (@missing_CallSid_shares_undefined sample_builtins ∅ anonymous_webhook
              (Replies question_text) DbOk) as (Hsent & _ & _ & _ & Hleft).
  - reflexivity.
  - split; [exact Hsent|].
    destruct (Hleft reply_question) as [Hthere _].
    + apply reports_question.
    + reflexivity.
    + reflexivity.
    + rewrite Hthere. eauto.
Defined.

(** * Further properties of the handlers *)

Section Locality.
Context {B : Builtins}.

(** A turn leaves the entries of the other calls as they are. *)
Lemma run_voice_other_entries store body llm db k :
  ToString (prop body "CallSid") <> Ok k ->
  conversationState (run_voice store body llm db).1 !! k = store !! k.
Proof.
  intros Hk.
  destruct (run_voice_path store body llm db); project; try done;
    try (rewrite lookup_insert_ne by congruence; done).
  rewrite lookup_delete_ne by congruence. done.
Qed.

Lemma usable_same_entry store store' key :
  store !! key = store' !! key -> usable store key -> usable store' key.
Proof. intros Heq [Hs|Hk]; [left; by rewrite <- Heq | by right]. Qed.

Lemma run_voice_inherited store body llm db key :
  ToString (prop body "CallSid") = Ok key ->
  store !! key = None -> key ∈ Object_prototype_keys ->
  run_voice store body llm db
  = if truthy (prop body "SpeechResult")
    then (Machine store [] [], Throw TypeError)
    else (Machine store apology_document [ConsoleError turn_error_text], Ok tt).
Proof.
  intros Hkey Hst Hk. unfold run_voice, voice. unfold bind at 1.
  rewrite (prelude_inherited _ _ _ _ _ Hkey Hst Hk).
  destruct (truthy (prop body "SpeechResult")); [done|].
  unfold try_catch. by rewrite (guarded_no_entry _ _ _ _ _ _ _ Hst), on_error_runs.
Qed.

Lemma sent_same (out out' : machine * result unit) :
  twiml out.1 = twiml out'.1 -> out.2 = out'.2 -> sent out = sent out'.
Proof.
  destruct out as [m res], out' as [m' res']. simpl. intros -> ->.
  by destruct res'.
Qed.

(** What a turn says, does and leaves under its key depends on the store
    through the entry of its call only. *)
Lemma run_voice_same_entry store store' body llm db key :
  ToString (prop body "CallSid") = Ok key ->
  store !! key = store' !! key ->
  twiml (run_voice store body llm db).1 = twiml (run_voice store' body llm db).1 /\
  trace (run_voice store body llm db).1 = trace (run_voice store' body llm db).1 /\
  (run_voice store body llm db).2 = (run_voice store' body llm db).2 /\
  conversationState (run_voice store body llm db).1 !! key
  = conversationState (run_voice store' body llm db).1 !! key.
Proof.
  intros Hkey Heq.
  destruct (usable_or_inherited store key) as [Hu|[Hst Hk]].
  - pose proof (usable_same_entry _ _ _ Heq Hu) as Hu'.
    rewrite (run_voice_usable _ _ _ _ _ Hkey Hu), (run_voice_usable _ _ _ _ _ Hkey Hu').
    assert (state_at store' key = state_at store key) as ->
      by (unfold state_at; by rewrite Heq).
    set (st1 := heard (prop body "SpeechResult") (state_at store key)).
    unfold try_catch. destruct llm as [|c].
    { rewrite !guarded_rejects, !on_error_runs. project.
      by rewrite !lookup_insert_eq. }
    destruct (JSON_parse c) as [r|] eqn:Hc.
    2:{ rewrite !(guarded_unparseable _ _ _ _ _ _ _ _ Hc), !on_error_runs. project.
        by rewrite !lookup_insert_eq. }
    destruct (object_coercible r) eqn:Hr.
    2:{ rewrite !(guarded_not_object _ _ _ _ _ _ _ _ _ Hc Hr), !on_error_runs.
        project. by rewrite !lookup_insert_eq. }
    destruct (truthy (field r "isComplete")) eqn:Hq.
    + rewrite !(guarded_complete _ _ _ _ _ _ _ _ _ Hc Hq).
      destruct (builder_say (field r "responseText")); rewrite ?on_error_runs;
        project; by rewrite ?lookup_delete_eq, ?lookup_insert_eq.
    + rewrite !(guarded_question _ _ _ _ _ _ _ _ _ Hc Hr Hq).
      destruct (builder_say (field r "responseText")); rewrite ?on_error_runs;
        project; by rewrite !lookup_insert_eq.
  - assert (store' !! key = None) as Hst' by (by rewrite <- Heq).
    rewrite (run_voice_inherited _ _ _ _ _ Hkey Hst Hk),
      (run_voice_inherited _ _ _ _ _ Hkey Hst' Hk).
    destruct (truthy (prop body "SpeechResult")); project; by rewrite Hst, Hst'.
Qed.

(** X1: a turn is local to its call.  The document sent, the calls made
    to the collaborators, the result of the handler and the state left
    under the call's key are the same on any two stores that agree on the
    entry of the call, and every other entry is left as it was. *)
Theorem turn_is_local store store' body llm db key :
  ToString (prop body "CallSid") = Ok key ->
  store !! key = store' !! key ->
  let out := run_voice store body llm db in
  let out' := run_voice store' body llm db in
  sent out = sent out' /\
  trace out.1 = trace out'.1 /\
  out.2 = out'.2 /\
  conversationState out.1 !! key = conversationState out'.1 !! key /\
  (forall k, k <> key ->
     conversationState out.1 !! k = store !! k /\
     conversationState out'.1 !! k = store' !! k).
Proof.
  intros Hkey Heq out out'.
  destruct (run_voice_same_entry store store' body llm db key Hkey Heq)
    as (Htw & Htr & Hres & Hent).
  split; [by apply sent_same|].
  repeat split; try done; apply run_voice_other_entries; congruence.
Qed.

(** X2: turns of two different calls commute.  Delivered in either order
    they leave the same store, and each sends the document and makes the
    calls it would have made alone. *)
Theorem turns_of_different_calls_commute store body1 llm1 db1 body2 llm2 db2 k1 k2 :
  ToString (prop body1 "CallSid") = Ok k1 ->
  ToString (prop body2 "CallSid") = Ok k2 ->
  k1 <> k2 ->
  let after1 := conversationState (run_voice store body1 llm1 db1).1 in
  let after2 := conversationState (run_voice store body2 llm2 db2).1 in
  conversationState (run_voice after1 body2 llm2 db2).1
  = conversationState (run_voice after2 body1 llm1 db1).1 /\
  sent (run_voice after1 body2 llm2 db2) = sent (run_voice store body2 llm2 db2) /\
  trace (run_voice after1 body2 llm2 db2).1 = trace (run_voice store body2 llm2 db2).1 /\
  sent (run_voice after2 body1 llm1 db1) = sent (run_voice store body1 llm1 db1) /\
  trace (run_voice after2 body1 llm1 db1).1 = trace (run_voice store body1 llm1 db1).1.
Proof.
  intros H1 H2 Hne after1 after2.
  assert (after1 !! k2 = store !! k2) as E1
    by (apply run_voice_other_entries; congruence).
  assert (after2 !! k1 = store !! k1) as E2
    by (apply run_voice_other_entries; congruence).
  destruct (run_voice_same_entry _ _ body2 llm2 db2 _ H2 E1) as (Htw2 & Htr2 & Hres2 & Hent2).
  destruct (run_voice_same_entry _ _ body1 llm1 db1 _ H1 E2) as (Htw1 & Htr1 & Hres1 & Hent1).
  split.
  { apply map_eq. intros k.
    destruct (decide (k = k2)) as [->|Hk2].
    - rewrite Hent2. symmetry. apply run_voice_other_entries. congruence.
    - destruct (decide (k = k1)) as [->|Hk1].
      + rewrite Hent1. apply run_voice_other_entries. congruence.
      + rewrite !run_voice_other_entries by congruence.
        subst after1 after2. by rewrite !run_voice_other_entries by congruence. }
  split; [by apply sent_same|]. split; [done|].
  split; [by apply sent_same|]. done.
Qed.

End Locality.

Section Effects.
Context {B : Builtins}.

Lemma ToString_throws v e : ToString v = Throw e -> e = TypeError.
Proof. unfold ToString. destruct (to_string v); congruence. Qed.

(** X3: the handler reads three fields of the body, and the call
    identifier only through its string conversion: two bodies that agree
    on the conversion of [CallSid], on [SpeechResult] and on [To] are
    handled alike, whatever else they carry. *)
Theorem voice_reads_three_fields store body body' llm db :
  ToString (prop body "CallSid") = ToString (prop body' "CallSid") ->
  prop body "SpeechResult" = prop body' "SpeechResult" ->
  prop body "To" = prop body' "To" ->
  run_voice store body llm db = run_voice store body' llm db.
Proof.
  intros Hsid Hspeech Hto.
  unfold run_voice, voice, prelude, guarded, branch.
  by rewrite Hsid, Hspeech, Hto.
Qed.

(** X4: an exception leaves the handler in two cases only, both before
    the guarded block: the call identifier has no string conversion, or it
    is the name of an inherited property without entry and the request
    carries an utterance.  The exception is a TypeError, and nothing has
    been written, said or asked by then. *)
Theorem voice_throws_iff store body llm db :
  let out := run_voice store body llm db in
  let escapes :=
    ToString (prop body "CallSid") = Throw TypeError \/
    exists key,
      ToString (prop body "CallSid") = Ok key /\
      store !! key = None /\ key ∈ Object_prototype_keys /\
      truthy (prop body "SpeechResult") = true in
  (forall m e, out = (m, Throw e) ->
     m = Machine store [] [] /\ e = TypeError /\ escapes) /\
  (escapes -> out = (Machine store [] [], Throw TypeError)).
Proof.
  intros out escapes. subst out escapes. split.
  - intros m e Hout.
    destruct (run_voice_path store body llm db); simplify_eq.
    + pose proof (ToString_throws _ _ H) as ->. eauto.
    + split; [done|]. split; [done|]. right. eauto.
  - intros [Hno|(key & Hkey & Hst & Hk & Hu)].
    + unfold run_voice, voice. unfold bind at 1.
      by rewrite (prelude_no_key _ _ _ _ _ Hno).
    + by rewrite (run_voice_inherited _ _ _ _ _ Hkey Hst Hk), Hu.
Qed.


(** X6: what the caller is asked is what the history records: when the
    document sent gathers speech after saying a text, the call has an
    entry in the store and the last message of its history is the
    assistant's, with that text. *)
Theorem question_heard_is_recorded store body llm db attributes text :
  sent (run_voice store body llm db) = Some [Gather attributes [Say text]] ->
  exists key st,
    ToString (prop body "CallSid") = Ok key /\
    conversationState (run_voice store body llm db).1 !! key = Some st /\
    last (history st) = Some (Message assistant text) /\
    attributes = GatherAttributes "speech" "auto" "/voice" "POST".
Proof.
  intros Hsent.
  destruct (run_voice_path store body llm db); cbn [sent twiml] in Hsent;
    try discriminate Hsent;
    unfold question_document, farewell_document, said in Hsent;
    destruct (builder_say (field r "responseText")); simplify_eq.
  exists key, (replied r st1). project.
  split; [done|]. split; [apply lookup_insert_eq|]. split; [|done].
  unfold replied. simpl. apply last_snoc.
Qed.

(** X7: a turn that fails before its reply is recorded (the completion
    request is rejected, its content does not parse, or the parsed reply
    is [null]) keeps the utterance recorded before the [try]: the state of
    the call is the old one with the utterance appended, and the same
    webhook delivered again sends the utterance twice to the completion
    service. *)
Theorem failed_turn_keeps_utterance store body llm db m1 key :
  prelude body (Machine store [] []) = (m1, Ok key) ->
  is_Some (conversationState m1 !! key) ->
  (exists m2 e, through_reply key llm m1 = (m2, Throw e)) ->
  let u := prop body "SpeechResult" in
  let old := state_at store key in
  let out := run_voice store body llm db in
  sent out = Some [Say (VStr apology); Hangup] /\
  conversationState out.1 !! key
  = Some (State (history old ++ (if truthy u then [Message user u] else []))
                (collectedData old)) /\
  forall llm' db',
    exists req,
      completions (trace (run_voice (conversationState out.1) body llm' db').1)
      = [req] /\
      messages req
      = [Message system (VStr systemPrompt)]
          ++ history old
          ++ (if truthy u then [Message user u; Message user u] else [])
          ++ [Message system (VStr (reminder (collectedData old)))].
Proof.
  intros Hpre Hentry (m2 & e & Hthrough) u old out. subst u old.
  set (u := prop body "SpeechResult"). set (old := state_at store key).
  destruct (through_reply_throws _ _ _ _ _ Hthrough) as [Hcs Htw].
  assert (guarded key body llm db m1 = (m2, Throw e)) as Hg.
  { rewrite guarded_through. unfold bind at 1. by rewrite Hthrough. }
  destruct (prelude_shape _ _ _ _ Hpre) as [Hkey [[Hu ->]|(Hst & Hk & _ & ->)]].
  2:{ simpl in Hentry. rewrite Hst in Hentry. by destruct Hentry. }
  fold u old in Hg, Hcs.
  assert (out = (Machine (<[key := heard u old]> store) apology_document
                   (trace m2 ++ [ConsoleError turn_error_text]), Ok tt)) as Hout.
  { subst out. rewrite (run_voice_usable _ _ _ _ _ Hkey Hu). unfold try_catch.
    fold u old. rewrite Hg. destruct m2 as [store2 tw2 tr2].
    rewrite on_error_runs. simpl in Hcs, Htw. by rewrite Hcs, Htw. }
  assert (state_at (<[key := heard u old]> store) key = heard u old) as Hat.
  { unfold state_at. by rewrite lookup_insert_eq. }
  rewrite Hout. project. split; [done|]. split.
  { rewrite lookup_insert_eq. f_equal. unfold heard.
    destruct (truthy u); [done|]. rewrite app_nil_r. by destruct old. }
  intros llm' db'. eexists. split.
  - apply (one_completion_request _ _ _ _ key); [done|].
    left. rewrite lookup_insert_eq. eauto.
  - fold u. rewrite Hat. unfold request_for, heard. simpl.
    destruct (truthy u); simpl; [|done].
    by rewrite <- !app_assoc.
Qed.

(** X8: a call completed with a farewell the builder accepts leaves
    nothing behind: when a further webhook arrives under the same
    identifier, the request sent to the completion service holds no
    earlier message and empty collected data. *)
Theorem completed_call_starts_afresh store body llm db key m1 m' r :
  prelude body (Machine store [] []) = (m1, Ok key) ->
  obtain_reply key llm m1 = (m', Ok r) ->
  truthy (field r "isComplete") = true ->
  builder_say (field r "responseText") <> Rejected ->
  key ∉ Object_prototype_keys ->
  let left := conversationState (run_voice store body llm db).1 in
  forall body' llm' db',
    ToString (prop body' "CallSid") = Ok key ->
    let u' := prop body' "SpeechResult" in
    exists req,
      completions (trace (run_voice left body' llm' db').1) = [req] /\
      messages req
      = [Message system (VStr systemPrompt)]
          ++ (if truthy u' then [Message user u'] else [])
          ++ [Message system (VStr (reminder empty_object))].
Proof.
  intros Hpre Hob Hq Hsay Hk left body' llm' db' Hkey' u'.
  destruct (reply_obtained _ _ _ _ _ _ _ Hpre Hob) as (Hkey & Hu & Hrep).
  assert (left = delete key store) as ->.
  { subst left. rewrite (run_voice_complete _ _ _ _ _ _ Hkey Hu Hrep Hq).
    by destruct (builder_say (field r "responseText")). }
  eexists. split.
  - apply (one_completion_request _ _ _ _ key); [done|]. by right.
  - unfold state_at. rewrite lookup_delete_eq. simpl. fold u'.
    unfold heard. by destruct (truthy u').
Qed.

(** X9: a reply whose [extractedData] has no own enumerable property
    (it is absent, [null], a number, a boolean, or an empty object, array
    or string) is accepted and leaves the collected data as it was. *)
Theorem reply_without_extraction_keeps_data store body llm key m1 m2 r :
  prelude body (Machine store [] []) = (m1, Ok key) ->
  through_reply key llm m1 = (m2, Ok r) ->
  own_entries (field r "extractedData") = [] ->
  exists st2,
    conversationState m2 !! key = Some st2 /\
    collectedData st2 = collectedData (state_at store key).
Proof.
  intros Hpre Hthrough Hnone.
  destruct (reply_recorded_inv _ _ _ _ _ _ _ Hpre Hthrough)
    as (_ & _ & _ & _ & ->).
  eexists. split; [apply lookup_insert_eq|]. simpl.
  unfold Object_assign. rewrite Hnone. simpl. unfold heard.
  by destruct (truthy (prop body "SpeechResult")).
Qed.

(** X10: [savePatientData] always returns normally.  It issues its one
    query, prints one line, and writes neither the store nor the document;
    the line reports success only when the database accepted the query and
    the called number has a string conversion, and the error otherwise,
    also when it is the success message that failed. *)
Theorem savePatientData_always_returns phoneNumber data db store tw tr :
  exists line,
    savePatientData phoneNumber data db (Machine store tw tr)
    = (Machine store tw
         (tr ++ [Query query [js_get data "full_name"; phoneNumber;
                              js_get data "address";
                              js_get data "health_condition"];
                 line]),
       Ok tt) /\
    ((db = DbOk /\
      exists n, ToString phoneNumber = Ok n /\
                line = ConsoleLog ("Successfully saved/updated data for " +:+ n)) \/
     ((db = DbFails \/ ToString phoneNumber = Throw TypeError) /\
      line = ConsoleError "Error saving data to database:")).
Proof.
  exists (persistence_log phoneNumber db). split.
  - by rewrite savePatientData_runs.
  - unfold persistence_log. destruct db.
    + destruct (ToString phoneNumber) as [n|e] eqn:Hn.
      * left. eauto.
      * right. pose proof (ToString_throws _ _ Hn) as ->. eauto.
    + right. eauto.
Qed.

(** X19: whenever the handler answers, the document is the apology
    followed by a hangup, alone or after an empty gather; or a hangup,
    alone or after one text; or one gather, empty or saying one text.  It
    is never empty, it has at most one gather, which comes first, and a
    hangup only as its last verb. *)
Theorem answer_is_one_of_six store body llm db document :
  sent (run_voice store body llm db) = Some document ->
  let gather := Gather (GatherAttributes "speech" "auto" "/voice" "POST") in
  document = [Say (VStr apology); Hangup] \/
  document = [gather []; Say (VStr apology); Hangup] \/
  document = [Hangup] \/
  document = [gather []] \/
  exists text,
    document = [Say text; Hangup] \/ document = [gather [Say text]].
Proof.
  intros Hsent gather.
  destruct (run_voice_path store body llm db); cbn [sent twiml] in Hsent;
    simplify_eq; eauto;
    unfold question_document, farewell_document, said;
    destruct (builder_say (field r "responseText")); simpl; eauto 10.
Qed.

(** X20: an exception raised inside the [try] block is answered with the
    apology and the hangup, added to what the block had put into the
    document: nothing, or the empty gather when it is the text of a
    question that the builder rejected.  No entry of the store is
    removed. *)
Theorem exception_in_try_block store body llm db m1 key m2 e :
  prelude body (Machine store [] []) = (m1, Ok key) ->
  guarded key body llm db m1 = (m2, Throw e) ->
  let out := run_voice store body llm db in
  out = (Machine (conversationState m2) (twiml m2 ++ [Say (VStr apology); Hangup])
           (trace m2 ++ [ConsoleError "Error during LLM processing or TwiML generation:"]),
         Ok tt) /\
  (twiml m2 = [] \/
   twiml m2 = [Gather (GatherAttributes "speech" "auto" "/voice" "POST") []] /\
   e = BuilderError /\
   exists r, reports llm r /\ truthy (field r "isComplete") = false /\
             builder_say (field r "responseText") = Rejected) /\
  (forall k, is_Some (store !! k) -> is_Some (conversationState out.1 !! k)) /\
  (usable store key -> is_Some (conversationState out.1 !! key)).
Proof.
  intros Hpre Hg out.
  assert (out = (Machine (conversationState m2) (twiml m2 ++ apology_document)
                   (trace m2 ++ [ConsoleError turn_error_text]), Ok tt)) as ->.
  { subst out. unfold run_voice, voice. unfold bind at 1. rewrite Hpre.
    unfold try_catch. rewrite Hg. destruct m2. by rewrite on_error_runs. }
  split; [done|]. project.
  assert (forall st k, is_Some (store !! k) -> is_Some (<[key := st]> store !! k))
    as Hkept.
  { intros st k Hk. destruct (decide (key = k)) as [->|Hne].
    - rewrite lookup_insert_eq. eauto.
    - by rewrite lookup_insert_ne. }
  destruct (prelude_shape _ _ _ _ Hpre) as [Hkey [[Hu ->]|(Hst & Hk & _ & ->)]].
  - destruct (guarded_throws _ _ _ _ _ _ _ _ _ _ Hg)
      as [(-> & -> & _)|(r & Hrep & Hr & Hsay & -> & -> & ->)].
    + split; [by left|]. split; [by apply Hkept|].
      intros _. rewrite lookup_insert_eq. eauto.
    + split.
      * destruct (truthy (field r "isComplete")) eqn:Hq; [by left|].
        right. split; [done|]. split; [done|]. by exists r.
      * split; [by apply Hkept|]. intros _. rewrite lookup_insert_eq. eauto.
  - rewrite (guarded_no_entry _ _ _ _ _ _ _ Hst) in Hg. simplify_eq. project.
    split; [by left|]. split; [done|].
    intros [[? ?]|?]; [congruence|done].
Qed.

(** X21: a turn whose text the builder rejects has recorded the reply all
    the same: the state of the call holds the merged extraction and the
    assistant's message, the caller is sent the apology, and on a turn
    that reports completion the query has been issued although the state
    stays in the store. *)
Theorem rejected_text_keeps_reply store body llm db key m1 m2 r :
  prelude body (Machine store [] []) = (m1, Ok key) ->
  through_reply key llm m1 = (m2, Ok r) ->
  builder_say (field r "responseText") = Rejected ->
  let out := run_voice store body llm db in
  let before := heard (prop body "SpeechResult") (state_at store key) in
  conversationState out.1 = conversationState m2 /\
  conversationState out.1 !! key
  = Some (State (history before ++ [Message assistant (field r "responseText")])
                (Object_assign (collectedData before) (field r "extractedData"))) /\
  (truthy (field r "isComplete") = true ->
   sent out = Some [Say (VStr apology); Hangup] /\
   length (queries (trace out.1)) = 1) /\
  (truthy (field r "isComplete") = false ->
   sent out = Some [Gather gather_attrs []; Say (VStr apology); Hangup] /\
   queries (trace out.1) = []).
Proof.
  intros Hpre Hthrough Hsay out before.
  destruct (reply_recorded_inv _ _ _ _ _ _ _ Hpre Hthrough)
    as (Hkey & Hu & Hrep & Hr & ->).
  subst out. project. destruct (truthy (field r "isComplete")) eqn:Hq.
  - rewrite (run_voice_complete _ _ _ _ _ _ Hkey Hu Hrep Hq), Hsay. project.
    split; [done|]. split; [apply lookup_insert_eq|]. split; [|done].
    intros _. split; [done|]. by rewrite queries_of_rejected_trace.
  - rewrite (run_voice_question _ _ _ _ _ _ Hkey Hu Hrep Hr Hq), Hsay. project.
    split; [done|]. split; [apply lookup_insert_eq|]. split; [done|].
    intros _. done.
Qed.

End Effects.

(** ** The merge, the store and the endpoint *)

Lemma keys_overwrite k v l : (overwrite k v l).*1 = l.*1.
Proof.
  induction l as [|[k0 v0] l IH]; [done|]. cbn [overwrite].
  destruct (String.eqb k k0); [done|]. by rewrite !fmap_cons, IH.
Qed.

(** An array index is the decimal text of its number. *)
Lemma array_index_pretty k n : array_index k = Some n -> k = pretty n.
Proof.
  unfold array_index. destruct (decimal k 0) as [n'|]; [|done]. simpl.
  destruct (n' <? 4294967295)%N; [|done]. simpl.
  destruct (String.eqb_spec (pretty n') k); [|done]. congruence.
Qed.

Lemma keys_insert_index n k v l : (insert_index n k v l).*1 ≡ₚ k :: l.*1.
Proof.
  induction l as [|[k0 v0] l IH]; cbn [insert_index]; [done|].
  destruct (array_index k0) as [n0|]; [|done].
  destruct (n0 <? n)%N; [|done].
  rewrite !fmap_cons, IH. apply Permutation_swap.
Qed.

Lemma keys_insert_index_sublist n k v l : l.*1 `sublist_of` (insert_index n k v l).*1.
Proof.
  induction l as [|[k0 v0] l IH]; cbn [insert_index].
  - apply sublist_nil_l.
  - destruct (array_index k0) as [n0|]; [destruct (n0 <? n)%N|].
    + rewrite !fmap_cons. by apply sublist_skip.
    + rewrite (fmap_cons _ (k, v)). by apply sublist_cons.
    + rewrite (fmap_cons _ (k, v)). by apply sublist_cons.
Qed.

(** A new array index is put where the enumeration has it. *)
Lemma insert_index_order n k v l :
  array_index k = Some n -> has_key k l = false ->
  enumeration_order l.*1 -> enumeration_order (insert_index n k v l).*1.
Proof.
  unfold enumeration_order. intros Hk.
  induction l as [|[k0 v0] l IH]; intros Hno Hord; cbn [insert_index].
  - repeat constructor.
  - rewrite has_key_cons in Hno. apply orb_false_elim in Hno as [Hne Hno].
    rewrite fmap_cons in Hord. apply StronglySorted_cons in Hord as [Hall Hord].
    cbn [fst] in Hall.
    assert (forall n0, array_index k0 = Some n0 -> n0 <> n) as Hdiff.
    { intros n0 Hk0 ->. apply array_index_pretty in Hk, Hk0. subst.
      by rewrite String.eqb_refl in Hne. }
    destruct (array_index k0) as [n0|] eqn:Hk0; [destruct (N.ltb_spec n0 n)|].
    + rewrite fmap_cons. cbn [fst]. apply StronglySorted_cons. split; [|by apply IH].
      rewrite keys_insert_index. constructor; [|done].
      unfold enumerated_before. by rewrite Hk0, Hk.
    + specialize (Hdiff n0 eq_refl).
      rewrite (fmap_cons _ (k, v)). apply StronglySorted_cons. split.
      * rewrite fmap_cons. constructor.
        { unfold enumerated_before. cbn [fst]. rewrite Hk, Hk0. lia. }
        eapply Forall_impl; [exact Hall|]. intros x Hx.
        unfold enumerated_before in *. cbn [fst]. rewrite Hk0 in Hx. rewrite Hk.
        destruct (array_index x); [lia|done].
      * rewrite fmap_cons. apply StronglySorted_cons. done.
    + rewrite (fmap_cons _ (k, v)). apply StronglySorted_cons. split.
      * rewrite fmap_cons. constructor.
        { unfold enumerated_before. cbn [fst]. by rewrite Hk, Hk0. }
        eapply Forall_impl; [exact Hall|]. intros x Hx.
        unfold enumerated_before in *. cbn [fst]. rewrite Hk0 in Hx. rewrite Hk.
        by destruct (array_index x).
      * rewrite fmap_cons. apply StronglySorted_cons. done.
Qed.

(** A write keeps the keys there are, in their order, adds none twice and
    keeps the enumeration order. *)
Lemma define_own_keys k v l :
  l.*1 `sublist_of` (define_own k v l).*1 /\
  (NoDup l.*1 -> NoDup (define_own k v l).*1) /\
  (enumeration_order l.*1 -> enumeration_order (define_own k v l).*1) /\
  (array_index k = None -> l.*1 `prefix_of` (define_own k v l).*1).
Proof.
  unfold define_own. destruct (has_key k l) eqn:Hk.
  { rewrite keys_overwrite. done. }
  assert (k ∉ l.*1) as Hfresh.
  { intros Hin. apply has_key_elem_of in Hin. congruence. }
  destruct (array_index k) as [n|] eqn:Hn.
  - split; [apply keys_insert_index_sublist|]. split; [|split; [|done]].
    + intros Hnd. rewrite keys_insert_index. by apply NoDup_cons.
    + by apply insert_index_order.
  - rewrite fmap_app. split; [by apply sublist_inserts_r|].
    split; [|split; [|intros _; by apply prefix_app_r]].
    + intros Hnd. apply NoDup_app. split; [done|]. split; [|apply NoDup_singleton].
      by intros x Hx ->%list_elem_of_singleton.
    + unfold enumeration_order. intros Hord. apply StronglySorted_app.
      split; [|split; [done|repeat constructor]].
      intros x1 x2 _ ->%list_elem_of_singleton.
      unfold enumerated_before. cbn [fst]. rewrite Hn. by destruct (array_index x1).
Qed.

Lemma js_set_keys o k v :
  (own o).*1 `sublist_of` (own (js_set o k v)).*1 /\
  (NoDup (own o).*1 -> NoDup (own (js_set o k v)).*1) /\
  (enumeration_order (own o).*1 -> enumeration_order (own (js_set o k v)).*1) /\
  (array_index k = None -> (own o).*1 `prefix_of` (own (js_set o k v)).*1).
Proof.
  unfold js_set. destruct (String.eqb k "__proto__" && reaches_proto_setter o).
  - unfold set_prototype. by destruct v.
  - apply define_own_keys.
Qed.

Lemma Object_assign_keys target source :
  (own target).*1 `sublist_of` (own (Object_assign target source)).*1 /\
  (NoDup (own target).*1 -> NoDup (own (Object_assign target source)).*1) /\
  (enumeration_order (own target).*1 ->
   enumeration_order (own (Object_assign target source)).*1) /\
  (Forall (fun kv => array_index kv.1 = None) (own_entries source) ->
   (own target).*1 `prefix_of` (own (Object_assign target source)).*1).
Proof.
  unfold Object_assign. revert target.
  induction (own_entries source) as [|[k v] es IH]; intros target; simpl.
  - done.
  - destruct (js_set_keys target k v) as (Hsub & Hnd & Hord & Hpre).
    destruct (IH (js_set target k v)) as (Hsub' & Hnd' & Hord' & Hpre').
    split; [by etransitivity|]. split; [auto|]. split; [auto|].
    intros Hall. apply Forall_cons in Hall as [Hk Hall].
    etransitivity; [by apply Hpre|by apply Hpre'].
Qed.

(** X11: the merge keeps the own keys of the collected data in the order
    in which the language enumerates them, array indices first and
    ascending, and free of duplicates; the keys present before it stay, in
    their order, and they stay first when no key of the extraction is an
    array index. *)
Theorem merge_keeps_key_order target source :
  NoDup (own target).*1 ->
  enumeration_order (own target).*1 ->
  let merged := Object_assign target source in
  (own target).*1 `sublist_of` (own merged).*1 /\
  NoDup (own merged).*1 /\
  enumeration_order (own merged).*1 /\
  (Forall (fun kv => array_index kv.1 = None) (own_entries source) ->
   exists added, (own merged).*1 = (own target).*1 ++ added).
Proof.
  intros Hnd Hord merged.
  destruct (Object_assign_keys target source) as (Hsub & Hnd' & Hord' & Hpre).
  split; [done|]. split; [auto|]. split; [auto|]. intros Hall. by apply Hpre.
Qed.

(** X12: without a [__proto__] key the merge is idempotent: merging an
    extraction into data that already received it changes nothing. *)
Theorem merge_idempotent_without_proto_key target source :
  has_key "__proto__" (own_entries source) = false ->
  Object_assign (Object_assign target source) source = Object_assign target source.
Proof.
  intros Hno. unfold Object_assign.
  rewrite !Object_assign_plain_entries by done.
  cbn [own proto]. f_equal.
  apply fold_define_own_idempotent.
Qed.

(** X13: without a [__proto__] key the merge of an object is a shallow
    overwrite: afterwards each key of the extraction reads as the
    extraction's value, whatever it was before, every other own property
    and the prototype are unchanged. *)
Theorem merge_overwrites_without_proto_key target kvs :
  has_key "__proto__" kvs = false -> NoDup kvs.*1 ->
  let merged := Object_assign target (VObj kvs) in
  (forall k v, (k, v) ∈ kvs -> js_get merged k = v) /\
  (forall k, has_key k kvs = false -> js_get merged k = js_get target k) /\
  proto merged = proto target.
Proof.
  intros Hno Hnd merged.
  destruct (Object_assign_overwrites target kvs Hno Hnd) as (Hin & Hout & Hproto).
  split; [|split; [|done]].
  - intros k v Hkv. unfold js_get. subst merged. by rewrite (Hin k v Hkv).
  - intros k Hk. unfold js_get. subst merged. by rewrite (Hout k Hk), Hproto.
Qed.

Section Store.
Context {B : Builtins}.

(** X14: on a call identifier that has an entry, or that is not the name
    of an inherited property, fetch-or-create never fails: it leaves an
    existing entry as it is, creates the empty state otherwise, touches no
    other entry, and a second call changes nothing. *)
Theorem get_or_create_on_usable_key store tw tr key :
  usable store key ->
  let out := get_or_create key (Machine store tw tr) in
  out.2 = Ok tt /\ twiml out.1 = tw /\ trace out.1 = tr /\
  conversationState out.1 !! key
  = Some (default (State [] (JsObject [] ProtoObject)) (store !! key)) /\
  (forall k, k <> key -> conversationState out.1 !! k = store !! k) /\
  get_or_create key out.1 = out.
Proof.
  intros Hu out. subst out. rewrite (get_or_create_usable _ _ _ _ Hu). project.
  split; [done|]. split; [done|]. split; [done|].
  split; [by rewrite lookup_insert_eq|].
  split; [intros k Hk; by rewrite lookup_insert_ne|].
  unfold get_or_create. simpl.
  by rewrite (store_get_entry _ _ _ (lookup_insert_eq _ _ _)).
Qed.

(** X15: the call-initiation handler writes neither the store nor a
    document and asks neither the completion service nor the database.  It
    places a call exactly when it answers 200 or 500, and then one; an
    exception leaves it only when a field is present but has no string
    conversion, before any call is placed. *)
Theorem initiate_call_effects sender store tw body tel :
  let phoneNumber := prop body "phoneNumber" in
  let ngrokUrl := prop body "ngrokUrl" in
  let out := initiate_call sender body tel (Machine store tw []) in
  conversationState out.1 = store /\ twiml out.1 = tw /\
  queries (trace out.1) = [] /\ completions (trace out.1) = [] /\
  (forall answer, out.2 = Ok answer ->
     (status answer = 400 /\ calls (trace out.1) = []) \/
     ((status answer = 200 \/ status answer = 500) /\
      length (calls (trace out.1)) = 1)) /\
  (forall e, out.2 = Throw e ->
     e = TypeError /\ calls (trace out.1) = [] /\
     truthy phoneNumber = true /\ truthy ngrokUrl = true /\
     (ToString ngrokUrl = Throw TypeError \/
      ToString phoneNumber = Throw TypeError)).
Proof.
  intros phoneNumber ngrokUrl out. subst out. unfold initiate_call.
  fold phoneNumber ngrokUrl.
  destruct (truthy phoneNumber) eqn:Hp, (truthy ngrokUrl) eqn:Hn; simpl;
    try (do 4 (split; [done|]); split;
         [intros answer Ha; simplify_eq; by left | intros e He; simplify_eq]).
  unfold bind, lift, emit, ret.
  destruct (ToString ngrokUrl) as [base|e1] eqn:Hbase; simpl.
  2:{ pose proof (ToString_throws _ _ Hbase) as ->.
      do 4 (split; [done|]). split; [intros answer Ha; simplify_eq|].
      intros e He. simplify_eq. eauto 10. }
  destruct (ToString phoneNumber) as [callee|e2] eqn:Hcallee; simpl.
  2:{ pose proof (ToString_throws _ _ Hcallee) as ->.
      do 4 (split; [done|]). split; [intros answer Ha; simplify_eq|].
      intros e He. simplify_eq. eauto 10. }
  destruct tel; simpl; do 4 (split; [done|]);
    (split; [intros answer Ha; simplify_eq; right; simpl; eauto
            | intros e He; simplify_eq]).
Qed.

(** *** Invariants of the store *)

Lemma fresh_state_ok : state_ok fresh_state.
Proof. split; simpl; [constructor | apply NoDup_nil_2]. Qed.

Lemma heard_ok u st : state_ok st -> state_ok (heard u st).
Proof.
  intros [Hh Hd]. unfold heard. destruct (truthy u) eqn:Hu; [|done].
  split; simpl; [|done]. apply Forall_app. split; [done|].
  repeat constructor; done.
Qed.

Lemma replied_ok r st : state_ok st -> state_ok (replied r st).
Proof.
  intros [Hh Hd]. split; simpl.
  - apply Forall_app. split; [done|]. repeat constructor; done.
  - by apply Object_assign_keys.
Qed.

Lemma state_at_ok store key : store_ok store -> state_ok (state_at store key).
Proof.
  intros Hok. unfold state_at. destruct (store !! key) as [st|] eqn:Hst; simpl.
  - by apply (Hok key).
  - apply fresh_state_ok.
Qed.

(** Every turn keeps the invariant. *)
Lemma run_voice_keeps_store_ok store body llm db :
  store_ok store -> store_ok (conversationState (run_voice store body llm db).1).
Proof.
  intros Hok. unfold store_ok in *.
  destruct (run_voice_path store body llm db); project; try done;
    try (apply map_Forall_insert_2; [|done];
         by first [apply replied_ok, heard_ok, state_at_ok
                  |apply heard_ok, state_at_ok]).
  by apply map_Forall_delete.
Qed.

Lemma conversation_keeps_store_ok turns : forall store store',
  store_ok store -> conversation turns store = Some store' -> store_ok store'.
Proof.
  induction turns as [|[[body llm] db] turns IH]; intros store store' Hok Hrun;
    simpl in Hrun.
  - by simplify_eq.
  - pose proof (run_voice_keeps_store_ok store body llm db Hok) as Hnext.
    destruct (run_voice store body llm db) as [m [[]|e]]; [|done].
    by apply (IH (conversationState m)).
Qed.

(** X16: whatever webhooks were delivered since the process started, every
    state in the store has a history of user and assistant messages only,
    in which every user message is a truthy utterance, and collected data
    without duplicate key. *)
Theorem reachable_store_ok turns store :
  conversation turns ∅ = Some store ->
  forall key st,
    store !! key = Some st ->
    Forall (fun msg => (role msg = user /\ truthy (content msg) = true) \/
                       role msg = assistant) (history st) /\
    NoDup (own (collectedData st)).*1.
Proof.
  intros Hrun key st Hst.
  assert (store_ok store) as Hok.
  { apply (conversation_keeps_store_ok turns ∅); [|done].
    unfold store_ok. apply map_Forall_empty. }
  destruct (Hok key st Hst) as [Hh Hd]. split; [|done].
  eapply Forall_impl; [exact Hh|]. intros [[] c] [Hsys Huser]; simpl in *.
  - done.
  - left. auto.
  - by right.
Qed.

(** X17: in a conversation started on the empty store, a request to the
    completion service has its two system messages at the ends and none in
    between: what lies between the prompt and the reminder is the history
    of the call, made of user and assistant messages. *)
Theorem system_messages_only_at_ends turns store body llm db req :
  conversation turns ∅ = Some store ->
  req ∈ completions (trace (run_voice store body llm db).1) ->
  exists prompt middle reminder_text,
    messages req
    = [Message system (VStr prompt)] ++ middle ++ [Message system (VStr reminder_text)] /\
    prompt = systemPrompt /\
    Forall (fun msg => role msg <> system) middle.
Proof.
  intros Hrun Hreq.
  assert (store_ok store) as Hok.
  { apply (conversation_keeps_store_ok turns ∅); [|done].
    unfold store_ok. apply map_Forall_empty. }
  destruct (ToString (prop body "CallSid")) as [key|e] eqn:Hkey.
  2:{ exfalso. destruct (run_voice_path store body llm db);
        same_key; by apply elem_of_nil in Hreq. }
  destruct (usable_or_inherited store key) as [Hu|[Hst Hk]].
  2:{ exfalso. destruct (run_voice_path store body llm db);
        same_key; try not_usable; by apply elem_of_nil in Hreq. }
  rewrite (one_completion_request _ _ _ _ _ Hkey Hu) in Hreq.
  apply list_elem_of_singleton in Hreq as ->.
  eexists _, _, _. split; [reflexivity|]. split; [done|].
  destruct (heard_ok (prop body "SpeechResult") _ (state_at_ok store key Hok))
    as [Hh _].
  eapply Forall_impl; [exact Hh|]. by intros msg [? _].
Qed.

(** The entry of a call outlives a turn that does not complete that call:
    its history is extended and its collected keys are kept. *)
Lemma turn_extends_entry store body llm db k st :
  store !! k = Some st ->
  (ToString (prop body "CallSid") = Ok k -> never_completes llm) ->
  exists st',
    conversationState (run_voice store body llm db).1 !! k = Some st' /\
    history st `prefix_of` history st' /\
    (forall key, has_key key (own (collectedData st)) = true ->
                 has_key key (own (collectedData st')) = true).
Proof.
  intros Hst Hnever.
  assert (forall u, history st `prefix_of` history (heard u st)) as Hheard.
  { intros u. unfold heard. destruct (truthy u); [|done]. by apply prefix_app_r. }
  assert (forall u, collectedData (heard u st) = collectedData st) as Hdata.
  { intros u. unfold heard. by destruct (truthy u). }
  destruct (run_voice_path store body llm db); project; eauto.
  - destruct (decide (key = k)) as [->|Hne].
    + rewrite lookup_insert_eq. eexists. split; [done|].
      subst st1. unfold state_at. rewrite Hst. simpl.
      split; [done|]. intros key. by rewrite Hdata.
    + rewrite lookup_insert_ne by done. eauto.
  - destruct (decide (key = k)) as [->|Hne].
    + rewrite lookup_insert_eq. eexists. split; [done|].
      subst st1. unfold state_at. rewrite Hst. simpl. split.
      * apply prefix_app_r. done.
      * intros key Hkey. apply Object_assign_keeps_keys. by rewrite Hdata.
    + rewrite lookup_insert_ne by done. eauto.
  - destruct (decide (key = k)) as [->|Hne].
    + rewrite lookup_insert_eq. eexists. split; [done|].
      subst st1. unfold state_at. rewrite Hst. simpl. split.
      * apply prefix_app_r. done.
      * intros key Hkey. apply Object_assign_keeps_keys. by rewrite Hdata.
    + rewrite lookup_insert_ne by done. eauto.
  - destruct (decide (key = k)) as [->|Hne].
    + exfalso. specialize (Hnever H r H1). congruence.
    + rewrite lookup_delete_ne by done. eauto.
  - destruct (decide (key = k)) as [->|Hne].
    + exfalso. specialize (Hnever H r H1). congruence.
    + rewrite lookup_insert_ne by done. eauto.
Qed.

(** X18: the entry of a call stays in the store for as long as no
    delivery for that call reports completion, whatever happens to the
    other calls and however its own turns fail: its history only grows at
    the end, and no collected key is lost. *)
Theorem entry_survives_without_completion turns : forall store store' k st,
  Forall (fun t : delivery =>
            ToString (prop t.1.1 "CallSid") = Ok k -> never_completes t.1.2) turns ->
  conversation turns store = Some store' ->
  store !! k = Some st ->
  exists st',
    store' !! k = Some st' /\
    history st `prefix_of` history st' /\
    (forall key, has_key key (own (collectedData st)) = true ->
                 has_key key (own (collectedData st')) = true).
Proof.
  induction turns as [|[[body llm] db] turns IH]; intros store store' k st Hall Hrun Hst;
    simpl in Hrun.
  - simplify_eq. eauto.
  - apply Forall_cons in Hall as [Hhead Htail]. simpl in Hhead.
    destruct (turn_extends_entry store body llm db k st Hst Hhead)
      as (st1 & Hst1 & Hpre1 & Hkeys1).
    destruct (run_voice store body llm db) as [m [[]|e]]; [|done].
    destruct (IH (conversationState m) store' k st1 Htail Hrun Hst1)
      as (st' & Hst' & Hpre' & Hkeys').
    exists st'. split; [done|]. split; [by etransitivity|]. auto.
Qed.

End Store.

(** * Examples of the further properties *)

Lemma sample_key_not_inherited : "CA0001" ∉ Object_prototype_keys.
Proof.
  unfold Object_prototype_keys. intros H.
  repeat (apply elem_of_cons in H as [H|H]; [discriminate H|]).
  by apply elem_of_nil in H.
Qed.

(** X1 on the second turn of call [CA0001], with and without another call
    in the store. *)
Lemma turn_is_local_witness :
  sent (@run_voice sample_builtins store_after_question answer_webhook
          (Replies question_text) DbOk)
  = sent (@run_voice sample_builtins store_two_calls answer_webhook
            (Replies question_text) DbOk) /\
  conversationState
    (@run_voice sample_builtins store_two_calls answer_webhook
       (Replies question_text) DbOk).1 !! "CA0002"
  = Some fresh_state.
Proof.
  destruct (@turn_is_local sample_builtins store_after_question store_two_calls
              answer_webhook (Replies question_text) DbOk "CA0001")
    as (Hsent & _ & _ & _ & Hother).
  - reflexivity.
  - vm_compute. reflexivity.
  - split; [exact Hsent|].
    destruct (Hother "CA0002") as [_ Hkept]; [discriminate|].
    rewrite Hkept. vm_compute. reflexivity.
Defined.

(** X2 on the first turns of calls [CA0001] and [CA0002]. *)
Lemma turns_of_different_calls_commute_witness :
  let after1 := conversationState
                  (@run_voice sample_builtins ∅ first_webhook
                     (Replies question_text) DbOk).1 in
  let after2 := conversationState
                  (@run_voice sample_builtins ∅ other_webhook
                     (Replies question_text) DbOk).1 in
  conversationState
    (@run_voice sample_builtins after1 other_webhook (Replies question_text) DbOk).1
  = conversationState
      (@run_voice sample_builtins after2 first_webhook (Replies question_text) DbOk).1.
Proof.
  apply (@turns_of_different_calls_commute sample_builtins ∅
           first_webhook (Replies question_text) DbOk
           other_webhook (Replies question_text) DbOk "CA0001" "CA0002").
  - reflexivity.
  - reflexivity.
  - discriminate.
Defined.

(** X3 on a webhook that sends the call identifier as a one-element array
    and carries a further field. *)
Lemma voice_reads_three_fields_witness :
  @run_voice sample_builtins store_after_question answer_webhook
    (Replies complete_text) DbOk
  = @run_voice sample_builtins store_after_question array_webhook
      (Replies complete_text) DbOk.
Proof.
  apply (@voice_reads_three_fields sample_builtins); reflexivity.
Defined.

(** X4 on the call identifier [constructor]. *)
Lemma voice_throws_iff_witness :
  @run_voice sample_builtins ∅ inherited_webhook (Replies question_text) DbOk
  = (Machine ∅ [] [], Throw TypeError).
Proof.
  destruct (@voice_throws_iff sample_builtins ∅ inherited_webhook
              (Replies question_text) DbOk) as [_ Hescapes].
  apply Hescapes. right. exists "constructor".
  split; [reflexivity|]. split; [reflexivity|].
  split; [apply list_elem_of_here | reflexivity].
Defined.


(** X6 on the first turn of call [CA0001]. *)
Lemma question_heard_is_recorded_witness :
  exists st,
    conversationState
      (@run_voice sample_builtins ∅ first_webhook (Replies question_text) DbOk).1
      !! "CA0001" = Some st /\
    last (history st)
    = Some (Message assistant (VStr "Hello, I am Asha. May I know your full name?")).
Proof.
  destruct (@question_heard_is_recorded sample_builtins ∅ first_webhook
              (Replies question_text) DbOk gather_attrs
              (VStr "Hello, I am Asha. May I know your full name?"))
    as (key & st & Hkey & Hst & Hlast & _).
  - reflexivity.
  - exists st. split; [|exact Hlast].
    assert (key = "CA0001") as <- by (vm_compute in Hkey; congruence).
    exact Hst.
Defined.

(** X7 on a turn of call [CA0001] during which the completion service
    fails. *)
Lemma failed_turn_keeps_utterance_witness :
  conversationState
    (@run_voice sample_builtins store_after_question answer_webhook Rejects DbOk).1
    !! "CA0001"
  = Some (State [Message assistant (VStr "Hello, I am Asha. May I know your full name?");
                 Message user (VStr "I have a persistent cough")]
                empty_object).
Proof.
  pose (m1 := (prelude answer_webhook (Machine store_after_question [] [])).1).
  destruct (@failed_turn_keeps_utterance sample_builtins store_after_question
              answer_webhook Rejects DbOk m1 "CA0001") as (_ & Hkept & _).
  - vm_compute. reflexivity.
  - vm_compute. eauto.
  - eexists _, _. vm_compute. reflexivity.
  - rewrite Hkept. vm_compute. reflexivity.
Defined.

(** X8 on call [CA0001], completed and then called again. *)
Lemma completed_call_starts_afresh_witness :
  let left := conversationState
                (@run_voice sample_builtins store_after_question answer_webhook
                   (Replies complete_text) DbOk).1 in
  exists req,
    completions
      (trace (@run_voice sample_builtins left first_webhook
                (Replies question_text) DbOk).1) = [req] /\
    length (messages req) = 2.
Proof.
  pose (m1 := (prelude answer_webhook (Machine store_after_question [] [])).1).
  pose (m' := (@obtain_reply sample_builtins "CA0001" (Replies complete_text) m1).1).
  destruct (@completed_call_starts_afresh sample_builtins store_after_question
              answer_webhook (Replies complete_text) DbOk "CA0001" m1 m'
              reply_complete) with
    (body' := first_webhook) (llm' := Replies question_text) (db' := DbOk)
    as (req & Hone & Hmsg).
  - vm_compute. reflexivity.
  - vm_compute. reflexivity.
  - reflexivity.
  - discriminate.
  - apply sample_key_not_inherited.
  - reflexivity.
  - exists req. split; [exact Hone|]. rewrite Hmsg. reflexivity.
Defined.

(** X9 on a reply that has no [extractedData]. *)
Lemma reply_without_extraction_keeps_data_witness :
  let m1 := (prelude answer_webhook (Machine store_with_name [] [])).1 in
  let m2 := (@through_reply more_builtins "CA0001"
               (Replies (sample_stringify reply_no_extraction)) m1).1 in
  exists st2,
    conversationState m2 !! "CA0001" = Some st2 /\
    collectedData st2 = data_with_name.
Proof.
  intros m1 m2.
  destruct (@reply_without_extraction_keeps_data more_builtins store_with_name
              answer_webhook (Replies (sample_stringify reply_no_extraction))
              "CA0001" m1 m2 reply_no_extraction) as (st2 & Hst & Hdata).
  - vm_compute. reflexivity.
  - vm_compute. reflexivity.
  - reflexivity.
  - exists st2. split; [exact Hst|]. rewrite Hdata. reflexivity.
Defined.

(** X11 on an extraction with the key [7]: it is enumerated before the
    name collected earlier. *)
Lemma merge_keeps_key_order_witness :
  (own (Object_assign data_with_name numbered_extraction)).*1
  = ["7"; "full_name"; "age"] /\
  enumeration_order ["7"; "full_name"; "age"].
Proof.
  destruct (merge_keeps_key_order data_with_name numbered_extraction)
    as (_ & _ & Hord & _).
  - apply NoDup_singleton.
  - repeat constructor.
  - split; [reflexivity | exact Hord].
Defined.

(** X12 on the correction of the name. *)
Lemma merge_idempotent_without_proto_key_witness :
  Object_assign (Object_assign data_with_name (VObj correction)) (VObj correction)
  = Object_assign data_with_name (VObj correction).
Proof.
  apply merge_idempotent_without_proto_key. reflexivity.
Defined.

(** X13 on the correction of the name. *)
Lemma merge_overwrites_without_proto_key_witness :
  js_get (Object_assign data_with_name (VObj correction)) "full_name"
  = VStr "Meera D. Devi".
Proof.
  destruct (merge_overwrites_without_proto_key data_with_name correction)
    as (Hwritten & _ & _).
  - reflexivity.
  - apply NoDup_cons. split; [|apply NoDup_singleton].
    intros H. apply list_elem_of_singleton in H. discriminate H.
  - apply Hwritten. apply list_elem_of_here.
Defined.

(** X14 on a call without entry. *)
Lemma get_or_create_on_usable_key_witness :
  conversationState (get_or_create "CA0001" (Machine ∅ [] [])).1 !! "CA0001"
  = Some fresh_state.
Proof.
  destruct (get_or_create_on_usable_key ∅ [] [] "CA0001")
    as (_ & _ & _ & Hentry & _).
  - apply sample_key_usable.
  - exact Hentry.
Defined.

(** X15 on a body with both fields. *)
Lemma initiate_call_effects_witness :
  length (calls (trace (initiate_call (VStr "+15550199") initiate_body
                          (CallCreated "CA0002") (Machine ∅ [] [])).1)) = 1.
Proof.
  destruct (initiate_call_effects (VStr "+15550199") ∅ [] initiate_body
              (CallCreated "CA0002")) as (_ & _ & _ & _ & Hanswer & _).
  destruct (Hanswer (HttpResponse 200
                       (VObj [("message", VStr "Call has been successfully initiated!");
                              ("callSid", VStr "CA0002")])))
    as [[Hstatus _]|[_ Hone]].
  - reflexivity.
  - discriminate Hstatus.
  - exact Hone.
Defined.

(** X16 after the first turn of call [CA0001]. *)
Lemma reachable_store_ok_witness :
  exists st,
    store_after_question !! "CA0001" = Some st /\
    NoDup (own (collectedData st)).*1.
Proof.
  destruct (@reachable_store_ok sample_builtins
              [(first_webhook, Replies question_text, DbOk)] store_after_question)
    with (key := "CA0001")
         (st := State [Message assistant
                         (VStr "Hello, I am Asha. May I know your full name?")]
                      empty_object)
    as [_ Hnodup].
  - vm_compute. reflexivity.
  - vm_compute. reflexivity.
  - eexists. split; [vm_compute; reflexivity | exact Hnodup].
Defined.

(** X17 on the second turn of call [CA0001]. *)
Lemma system_messages_only_at_ends_witness :
  exists req prompt middle reminder_text,
    messages req
    = [Message system (VStr prompt)] ++ middle
        ++ [Message system (VStr reminder_text)] /\
    length middle = 2.
Proof.
  pose (req := @request_for sample_builtins
                 (State [Message assistant (VStr "Hello, I am Asha. May I know your full name?");
                         Message user (VStr "I have a persistent cough")]
                        empty_object)).
  destruct (@system_messages_only_at_ends sample_builtins
              [(first_webhook, Replies question_text, DbOk)] store_after_question
              answer_webhook (Replies complete_text) DbOk req)
    as (prompt & middle & reminder_text & Hmsg & _ & _).
  - vm_compute. reflexivity.
  - vm_compute. apply list_elem_of_here.
  - exists req, prompt, middle, reminder_text. split; [exact Hmsg|].
    apply (f_equal length) in Hmsg. rewrite !length_app in Hmsg.
    unfold req in Hmsg. simpl in Hmsg. lia.
Defined.

(** X18 on call [CA0001] while its turn fails and another call
    completes. *)
Lemma entry_survives_without_completion_witness :
  exists store' st',
    @conversation sample_builtins
      [(answer_webhook, Rejects, DbOk); (other_webhook, Replies complete_text, DbOk)]
      store_after_question = Some store' /\
    store' !! "CA0001" = Some st'.
Proof.
  pose (store' := default ∅
          (@conversation sample_builtins
             [(answer_webhook, Rejects, DbOk);
              (other_webhook, Replies complete_text, DbOk)]
             store_after_question)).
  destruct (@entry_survives_without_completion sample_builtins
              [(answer_webhook, Rejects, DbOk);
               (other_webhook, Replies complete_text, DbOk)]
              store_after_question store' "CA0001"
              (State [Message assistant
                        (VStr "Hello, I am Asha. May I know your full name?")]
                     empty_object))
    as (st' & Hst' & _).
  - repeat constructor; simpl.
    + intros _ r (c & Hc & _). discriminate Hc.
    + intros Hkey. discriminate Hkey.
  - vm_compute. reflexivity.
  - vm_compute. reflexivity.
  - exists store', st'. split; [vm_compute; reflexivity | exact Hst'].
Defined.

(** X19 on the first turn of call [CA0001]. *)
Lemma answer_is_one_of_six_witness :
  exists text,
    sent (@run_voice sample_builtins ∅ first_webhook (Replies question_text) DbOk)
    = Some [Gather gather_attrs [Say text]].
Proof.
  destruct (@answer_is_one_of_six sample_builtins ∅ first_webhook
              (Replies question_text) DbOk
              [Gather gather_attrs
                 [Say (VStr "Hello, I am Asha. May I know your full name?")]])
    as [H|[H|[H|[H|(text & [H|H])]]]].
  - reflexivity.
  - discriminate H.
  - discriminate H.
  - discriminate H.
  - discriminate H.
  - discriminate H.
  - exists (VStr "Hello, I am Asha. May I know your full name?"). reflexivity.
Defined.

(** X20 on a reply that is not JSON. *)
Lemma exception_in_try_block_witness :
  sent (@run_voice sample_builtins store_after_question answer_webhook
          (Replies "not json") DbOk)
  = Some [Say (VStr apology); Hangup].
Proof.
  pose (m1 := (prelude answer_webhook (Machine store_after_question [] [])).1).
  pose (m2 := (@guarded sample_builtins "CA0001" answer_webhook
                 (Replies "not json") DbOk m1).1).
  destruct (@exception_in_try_block sample_builtins store_after_question
              answer_webhook (Replies "not json") DbOk m1 "CA0001" m2 SyntaxError)
    as (Hout & _).
  - vm_compute. reflexivity.
  - vm_compute. reflexivity.
  - rewrite Hout. vm_compute. reflexivity.
Defined.

(** X21 on a question with a control character. *)
Lemma rejected_text_keeps_reply_witness :
  sent (@run_voice sample_builtins store_after_question answer_webhook
          (Replies (sample_stringify reply_garbled)) DbOk)
  = Some [Gather gather_attrs []; Say (VStr apology); Hangup].
Proof.
  pose (m1 := (prelude answer_webhook (Machine store_after_question [] [])).1).
  pose (m2 := (@through_reply sample_builtins "CA0001"
                 (Replies (sample_stringify reply_garbled)) m1).1).
  destruct (@rejected_text_keeps_reply sample_builtins store_after_question
              answer_webhook (Replies (sample_stringify reply_garbled)) DbOk
              "CA0001" m1 m2 reply_garbled) as (_ & _ & _ & Hquestion).
  - vm_compute. reflexivity.
  - vm_compute. reflexivity.
  - reflexivity.
  - destruct Hquestion as [Hsent _]; [reflexivity | exact Hsent].
Defined.
